(** * create-vapor: the scaffolding script [bin/index.js]

    A shallow embedding of the command-line script and the properties its
    specification states about it.

    Conventions of the embedding.
    - A JavaScript string is a [string] whose characters are read as the code
      units U+0000 .. U+00FF.  [trim] and [toLowerCase] are exact on that
      range.  The texts the script prints are given whole, as [console.log]
      writes them: a character outside the range (the emoji of the usage
      text and of the clone and completion messages) by the bytes of its
      UTF-8 encoding.
    - The script talks to the outside world through Node's [fs],
      [child_process], [readline], [path], [process] and [JSON]; these are
      not code of the repository and are taken as an interface, [Node].
    - Every call the script makes to the outside world is recorded, in
      order, as an [event].
    - The statements of the file are read in order, the top-level
      [await promptUser()] as sequential composition: what the script does
      once a loader runs its statements, [require] and top-level [await]
      alike. *)

From Stdlib Require Import String Ascii List Bool Arith Lia.
From Stdlib Require Import Floats.PrimFloat.
Import ListNotations.
Local Open Scope string_scope.
Local Open Scope list_scope.

Set Implicit Arguments.

(** ** JavaScript strings *)

Module JsString.

Definition nl : string := String "010"%char EmptyString.
Definition dquote : string := String "034"%char EmptyString.

(** [s.startsWith(p)] *)
Fixpoint startsWith (s p : string) {struct p} : bool :=
  match p, s with
  | EmptyString, _ => true
  | String _ _, EmptyString => false
  | String c p', String d s' => Ascii.eqb d c && startsWith s' p'
  end.

(** [s.endsWith(suf)]: some tail of [s] is [suf]. *)
Fixpoint endsWith (s suf : string) : bool :=
  (s =? suf) ||
  match s with
  | EmptyString => false
  | String _ s' => endsWith s' suf
  end.

(** [WhiteSpace] and [LineTerminator] code units below U+0100:
    TAB, LF, VT, FF, CR, SP and NBSP. *)
Definition isSpace (c : ascii) : bool :=
  let n := nat_of_ascii c in
  (((9 <=? n) && (n <=? 13)) || (n =? 32) || (n =? 160))%nat.

Fixpoint trimStart (s : string) : string :=
  match s with
  | EmptyString => EmptyString
  | String c s' => if isSpace c then trimStart s' else s
  end.

Fixpoint trimEnd (s : string) : string :=
  match s with
  | EmptyString => EmptyString
  | String c s' =>
      match trimEnd s' with
      | EmptyString => if isSpace c then EmptyString else String c EmptyString
      | t => String c t
      end
  end.

(** [s.trim()] *)
Definition trim (s : string) : string := trimEnd (trimStart s).

(** Lower case of one code unit: A-Z, and U+00C0 .. U+00DE but U+00D7. *)
Definition lowerChar (c : ascii) : ascii :=
  let n := nat_of_ascii c in
  if (((65 <=? n) && (n <=? 90)) ||
      ((192 <=? n) && (n <=? 222) && negb (n =? 215)))%nat
  then ascii_of_nat (n + 32) else c.

(** [s.toLowerCase()] *)
Fixpoint toLowerCase (s : string) : string :=
  match s with
  | EmptyString => EmptyString
  | String c s' => String (lowerChar c) (toLowerCase s')
  end.

(** [s.split(sep)] for a one-character separator. *)
Fixpoint split (sep : ascii) (s : string) : list string :=
  match s with
  | EmptyString => [EmptyString]
  | String c s' =>
      if Ascii.eqb c sep then EmptyString :: split sep s'
      else match split sep s' with
           | h :: t => String c h :: t
           | [] => [String c EmptyString]
           end
  end.

(** Empty or made of white space only. *)
Fixpoint blank (s : string) : bool :=
  match s with
  | EmptyString => true
  | String c s' => isSpace c && blank s'
  end.

(** Truthiness of a string: [""] is the only falsy one. *)
Definition truthy (s : string) : bool := negb (s =? "").

(** [c] occurs in [s]. *)
Fixpoint contains (c : ascii) (s : string) : bool :=
  match s with
  | EmptyString => false
  | String d s' => Ascii.eqb d c || contains c s'
  end.

(** [lines.join("\n")] *)
Fixpoint unlines (ls : list string) : string :=
  match ls with
  | [] => EmptyString
  | [l] => l
  | l :: rest => l ++ nl ++ unlines rest
  end.

End JsString.
Import JsString.

(** [args.includes(x)] *)
Definition includes (args : list string) (x : string) : bool :=
  existsb (String.eqb x) args.

(** ** JavaScript values, as [JSON.parse] builds them

    Objects keep their properties in enumeration order.  An array carries,
    next to its items, the named properties assigned to it ([own]); they
    live in memory only, [JSON.stringify] does not print them. *)

#[warnings="-register-all"]
Inductive jsval : Type :=
| VNull
| VBool (b : bool)
| VNum (x : float)
| VStr (s : string)
| VArr (items : list jsval) (own : list (string * jsval))
| VObj (props : list (string * jsval)).

(** The result of a call that may throw; [Thrown] carries [error.message]. *)
Inductive res (A : Type) : Type :=
| Thrown (message : string)
| Returned (a : A).
Arguments Thrown {A} message.
Arguments Returned {A} a.

Module Props.

Fixpoint get (ps : list (string * jsval)) (k : string) : option jsval :=
  match ps with
  | [] => None
  | (k', v) :: rest => if k' =? k then Some v else get rest k
  end.

(** Assignment keeps the place of a property that exists and appends a new
    one. *)
Fixpoint set (ps : list (string * jsval)) (k : string) (v : jsval)
  : list (string * jsval) :=
  match ps with
  | [] => [(k, v)]
  | (k', v') :: rest =>
      if k' =? k then (k, v) :: rest else (k', v') :: set rest k v
  end.

End Props.

(** [!v] is false: the value is truthy.  [None] is [undefined]. *)
Definition truthyVal (v : option jsval) : bool :=
  match v with
  | None => false
  | Some VNull => false
  | Some (VBool b) => b
  | Some (VNum x) => negb (PrimFloat.eqb x 0%float) && PrimFloat.eqb x x
  | Some (VStr s) => truthy s
  | Some (VArr _ _) => true
  | Some (VObj _) => true
  end.

Section PropertyAccess.

(** Whether the script runs as strict code, and the engine's wording of the
    [TypeError] for a property that cannot be read or assigned. *)
Variable strict : bool.
Variable typeError : option jsval -> string -> string.

(** [o.k], for the names the script uses ([name], [config],
    [shopifyStore]): none of them is an array index or a property of a
    primitive's prototype. *)
Definition getProp (o : option jsval) (k : string) : res (option jsval) :=
  match o with
  | None | Some VNull => Thrown (typeError o k)
  | Some (VObj ps) => Returned (Props.get ps k)
  | Some (VArr _ own) => Returned (Props.get own k)
  | Some (VBool _) | Some (VNum _) | Some (VStr _) => Returned None
  end.

(** [o.k = v]; returns [o] after the assignment.  Assigning to a property
    of a primitive does nothing in sloppy code and throws in strict code. *)
Definition setProp (o : option jsval) (k : string) (v : jsval) : res jsval :=
  match o with
  | None | Some VNull => Thrown (typeError o k)
  | Some (VObj ps) => Returned (VObj (Props.set ps k v))
  | Some (VArr items own) => Returned (VArr items (Props.set own k v))
  | Some ((VBool _ | VNum _ | VStr _) as p) =>
      if strict then Thrown (typeError o k) else Returned p
  end.

Definition bindRes {A B} (r : res A) (f : A -> res B) : res B :=
  match r with
  | Thrown m => Thrown m
  | Returned a => f a
  end.

(** Lines 189-197: the assignments to the parsed manifest.
<<
    packageJson.name = themeName;
    if (storeUrl) {
      if (!packageJson.config) { packageJson.config = {}; }
      packageJson.config.shopifyStore = storeUrl;
    }
>>
    [packageJson.config] is shared with [packageJson]: the assignment to
    its [shopifyStore] is seen through [packageJson]. *)
Definition rewriteManifest (themeName storeUrl : string) (packageJson : jsval)
  : res jsval :=
  bindRes (setProp (Some packageJson) "name" (VStr themeName)) (fun p1 =>
  if truthy storeUrl then
    bindRes (getProp (Some p1) "config") (fun c =>
    bindRes (if truthyVal c then Returned p1
             else setProp (Some p1) "config" (VObj [])) (fun p2 =>
    bindRes (getProp (Some p2) "config") (fun c2 =>
    bindRes (setProp c2 "shopifyStore" (VStr storeUrl)) (fun c3 =>
    match c2 with
    | Some (VObj _) | Some (VArr _ _) =>
        match p2 with
        | VObj ps => Returned (VObj (Props.set ps "config" c3))
        | VArr items own => Returned (VArr items (Props.set own "config" c3))
        | _ => Returned p2
        end
    | _ => Returned p2
    end))))
  else Returned p1).

End PropertyAccess.

(** ** The heading of the readme

    [readmeContent.replace(/# .*/, `# ${themeName}`)]: the first ["# "] and
    the rest of its line are replaced.  The replacement is a pattern:
    [$$], [$&], [$`] and [$'] in it are expanded; the expression has no
    capture group, so any other [$] stands for itself. *)

Module Readme.

Definition isLineTerminator (c : ascii) : bool :=
  Ascii.eqb c "010"%char || Ascii.eqb c "013"%char.

(** The longest prefix without a line terminator, and what follows it. *)
Fixpoint restOfLine (s : string) : string * string :=
  match s with
  | EmptyString => (EmptyString, EmptyString)
  | String c s' =>
      if isLineTerminator c then (EmptyString, s)
      else let (l, r) := restOfLine s' in (String c l, r)
  end.

(** The first match of [/# .*/]: what precedes it, the match, what
    follows it. *)
Fixpoint findHeading (s : string) : option (string * string * string) :=
  match s with
  | EmptyString => None
  | String c s' =>
      if startsWith s "# " then
        let (l, r) := restOfLine s in Some (EmptyString, l, r)
      else
        match findHeading s' with
        | Some (before, m, after) => Some (String c before, m, after)
        | None => None
        end
  end.

(** [GetSubstitution] for an expression without capture groups. *)
Fixpoint substitution (before matched after template : string) : string :=
  match template with
  | EmptyString => EmptyString
  | String c t =>
      if Ascii.eqb c "$" then
        match t with
        | String d t' =>
            if Ascii.eqb d "$" then
              String "$" (substitution before matched after t')
            else if Ascii.eqb d "&" then
              matched ++ substitution before matched after t'
            else if Ascii.eqb d "`" then
              before ++ substitution before matched after t'
            else if Ascii.eqb d "'" then
              after ++ substitution before matched after t'
            else String c (substitution before matched after t)
        | EmptyString => String c EmptyString
        end
      else String c (substitution before matched after t)
  end.

Definition replaceHeading (content themeName : string) : string :=
  match findHeading content with
  | None => content
  | Some (before, m, after) =>
      before ++ substitution before m after ("# " ++ themeName) ++ after
  end.

End Readme.

(** ** The outside world *)

(** What the script does to the outside world, call by call. *)
Inductive event : Type :=
| ConsoleLog (text : string)
| ConsoleError (text : string)
| CreateInterface
| Question (query : string)
| RlClose
| SpinnerStart (text : string)
| SpinnerSucceed (text : string)
| SpinnerFail (text : string)
| ExistsSync (path : string)
| MkdirSync (path : string)
| ReadFileSync (path : string)
| WriteFileSync (path data : string)
| ExecSync (command : string).

(** Node's side of the calls.  [W] is the state of the machine the script
    runs on (the file system, the network, the template repository).  A
    call that changes it returns the new state, also when it throws. *)
Record Node (W : Type) : Type := {
  cwd : string;                       (* process.cwd() *)
  platform : string;                  (* process.platform *)
  strictMode : bool;
  typeErrorMessage : option jsval -> string -> string;
  pathJoin : string -> string -> string -> string;
  existsSync : string -> W -> bool;
  mkdirSync : string -> W -> W * res unit;
  readFileSync : string -> W -> res string;
  writeFileSync : string -> string -> W -> W * res unit;
  execSync : string -> W -> W * res unit;
  JSON_parse : string -> res jsval;
  JSON_stringify : jsval -> string    (* JSON.stringify(v, null, 2) *)
}.

(** The machine and the lines still to come on standard input. *)
Record state (W : Type) : Type := {
  sys : W;
  stdin : list string
}.

(** How a computation ends: with a value, by [process.exit], by an
    exception nobody caught, or waiting for a line that never comes. *)
Inductive outcome (A : Type) : Type :=
| Ok (a : A)
| Exit (code : nat)
| Uncaught (message : string)
| Awaiting.
Arguments Ok {A} a.
Arguments Exit {A} code.
Arguments Uncaught {A} message.
Arguments Awaiting {A}.

(** A computation of the script: from a state to an outcome, the state it
    leaves and the events it caused. *)
Definition M (W A : Type) : Type :=
  state W -> outcome A * state W * list event.

Module Run.
Section Monad.
Context {W : Type}.

Definition ret {A} (a : A) : M W A := fun st => (Ok a, st, []).

Definition bind {A B} (m : M W A) (f : A -> M W B) : M W B :=
  fun st =>
    match m st with
    | (Ok a, st1, ev1) =>
        match f a st1 with
        | (r, st2, ev2) => (r, st2, ev1 ++ ev2)
        end
    | (Exit c, st1, ev1) => (Exit c, st1, ev1)
    | (Uncaught e, st1, ev1) => (Uncaught e, st1, ev1)
    | (Awaiting, st1, ev1) => (Awaiting, st1, ev1)
    end.

(** [try { m } catch (error) { h error.message }] *)
Definition tryCatch {A} (m : M W A) (h : string -> M W A) : M W A :=
  fun st =>
    match m st with
    | (Uncaught e, st1, ev1) =>
        match h e st1 with
        | (r, st2, ev2) => (r, st2, ev1 ++ ev2)
        end
    | other => other
    end.

Definition emit (e : event) : M W unit := fun st => (Ok tt, st, [e]).

(** [process.exit(code)] *)
Definition exit {A} (code : nat) : M W A := fun st => (Exit code, st, []).

Definition throw {A} (message : string) : M W A :=
  fun st => (Uncaught message, st, []).

(** A call that reads the machine. *)
Definition observe {A} (e : event) (f : W -> A) : M W A :=
  fun st => (Ok (f (sys st)), st, [e]).

(** A call that may throw without changing the machine. *)
Definition attempt {A} (e : event) (f : W -> res A) : M W A :=
  fun st =>
    match f (sys st) with
    | Returned a => (Ok a, st, [e])
    | Thrown m => (Uncaught m, st, [e])
    end.

(** A call that changes the machine and may throw. *)
Definition perform (e : event) (f : W -> W * res unit) : M W unit :=
  fun st =>
    match f (sys st) with
    | (w, Returned _) => (Ok tt, {| sys := w; stdin := stdin st |}, [e])
    | (w, Thrown m) => (Uncaught m, {| sys := w; stdin := stdin st |}, [e])
    end.

(** A pure computation that may throw. *)
Definition lift {A} (r : res A) : M W A :=
  match r with
  | Returned a => ret a
  | Thrown m => throw m
  end.

(** [rl.question(query, callback)]: the query is written and the next line
    of standard input is handed to the callback. *)
Definition question (query : string) : M W string :=
  fun st =>
    match stdin st with
    | [] => (Awaiting, st, [Question query])
    | answer :: rest =>
        (Ok answer, {| sys := sys st; stdin := rest |}, [Question query])
    end.

End Monad.
End Run.
Import Run.

Notation "x <- m ;; k" := (bind m (fun x => k))
  (at level 61, m at next level, right associativity).
Notation "m ;; k" := (bind m (fun _ => k))
  (at level 61, right associativity).

(** ** The script *)

(** The values the input collector hands to the pipeline. *)
Record config : Type := {
  themeName : string;
  storeUrl : string;
  initGit : bool;
  installDeps : bool
}.

(** Lines 13-28: the template literal of the help branch. *)
Definition usage : string :=
  unlines
    [ "";
      "  Vapor 🧪";
      "";
      "  Usage:";
      "    npx create-vapor [theme-name] [options]";
      "";
      "  Options:";
      "    --help, -h          Show this help message";
      "    --store, -s         Specify Shopify store URL (e.g., yourstore.myshopify.com)";
      "    --git, -g           Initialize git repository (true/false)";
      "    --install, -i       Install dependencies (true/false)";
      "    --non-interactive   Run in non-interactive mode (requires theme-name)";
      "";
      "  Example:";
      "    npx create-vapor my-theme --store=mystore.myshopify.com --git=true --install=true";
      "  " ].

Definition storeSuffix : string := ".myshopify.com".
Definition defaultThemeName : string := "shopify-custom-theme".
Definition defaultStoreUrl : string := "example-store.myshopify.com".

Definition themeNameRequired : string :=
  "Error: Theme name is required in non-interactive mode".
Definition storeUrlInvalid : string :=
  "Error: Store URL must end with .myshopify.com".
Definition storeUrlRetry : string :=
  "Store URL must end with .myshopify.com. Please try again.".

Definition themeNameQuery : string :=
  "What would you like to name your theme? (default: shopify-custom-theme): ".
Definition storeUrlQuery : string :=
  "What is your Shopify store URL? (yourstore.myshopify.com): ".
Definition gitInitQuery : string :=
  "Would you like to initialize a git repository? (Y/n): ".
Definition installDepsQuery : string :=
  "Would you like to install dependencies now? (Y/n): ".

(** Line 10 *)
Definition helpFlag (args : list string) : bool :=
  includes args "--help" || includes args "-h".

(** Line 33 *)
Definition nonInteractive (args : list string) : bool :=
  includes args "--non-interactive".

(** [arg.split("=")[1]]; it is defined for every argument that starts
    with one of the flag prefixes ([flagValue_defined] below). *)
Definition flagValue (arg : string) : string :=
  nth 1 (split "=" arg) EmptyString.

Definition isStoreFlag (arg : string) : bool :=
  startsWith arg "--store=" || startsWith arg "-s=".
Definition isGitFlag (arg : string) : bool :=
  startsWith arg "--git=" || startsWith arg "-g=".
Definition isInstallFlag (arg : string) : bool :=
  startsWith arg "--install=" || startsWith arg "-i=".

(** Lines 46-54: the body of [args.forEach], on the three variables it
    assigns: [storeUrl], [initGit] and [installDeps]. *)
Definition parseArg (acc : string * bool * bool) (arg : string)
  : string * bool * bool :=
  let '(store, git, install) := acc in
  if isStoreFlag arg then (flagValue arg, git, install)
  else if isGitFlag arg then
    (store, toLowerCase (flagValue arg) =? "true", install)
  else if isInstallFlag arg then
    (store, git, toLowerCase (flagValue arg) =? "true")
  else acc.

(** Lines 35-37 and 46-54 *)
Definition parseArgs (args : list string) : string * bool * bool :=
  fold_left parseArg args ("", true, true).

(** [url && !url.endsWith(".myshopify.com")] *)
Definition rejected (url : string) : bool :=
  truthy url && negb (endsWith url storeSuffix).

(** [answer.trim().toLowerCase() !== "n"] *)
Definition yes (answer : string) : bool :=
  negb (toLowerCase (trim answer) =? "n").

(** Lines 84-101: [promptStoreUrl], by recursion on the lines that standard
    input still holds; returns the value assigned to [storeUrl], the lines
    left and the events. *)
Fixpoint storeUrlAnswers (answers : list string)
  : outcome string * list string * list event :=
  match answers with
  | [] => (Awaiting, [], [Question storeUrlQuery])
  | answer :: rest =>
      let url := trim answer in
      if rejected url then
        let '(r, rest', ev) := storeUrlAnswers rest in
        (r, rest', Question storeUrlQuery :: ConsoleLog storeUrlRetry :: ev)
      else
        (Ok (if truthy url then url else defaultStoreUrl), rest,
         [Question storeUrlQuery])
  end.

Definition gitCheckoutCommand (name : string) : string :=
  "git clone -b add-accelerator git@github.com:ehousestudio/ehouse-starter-repo.git "
  ++ name.

Definition gitInitCommand (name : string) : string :=
  "cd " ++ name ++ " && git init && git add . && git commit -m "
  ++ dquote ++ "Initial commit" ++ dquote.

Definition installCommand (name : string) : string :=
  "cd " ++ name ++ " && npm install".

(** Lines 215-219 *)
Definition removeCommand (platform gitDir : string) : string :=
  if platform =? "win32"
  then "rmdir /s /q " ++ dquote ++ gitDir ++ dquote
  else "rm -rf " ++ dquote ++ gitDir ++ dquote.

Section Script.
Context {W : Type} (node : Node W).

(** Lines 12-30 *)
Definition showHelp : M W config :=
  emit (ConsoleLog usage) ;; exit 0.

(** Lines 40-60 *)
Definition nonInteractiveInput (args : list string) : M W config :=
  match hd_error args with
  | Some name =>
      if truthy name then
        let '(store, git, install) := parseArgs args in
        if rejected store then
          emit (ConsoleError storeUrlInvalid) ;; exit 1
        else
          ret {| themeName := name; storeUrl := store;
                 initGit := git; installDeps := install |}
      else emit (ConsoleError themeNameRequired) ;; exit 1
  | None => emit (ConsoleError themeNameRequired) ;; exit 1
  end.

(** Lines 71-81 *)
Definition promptThemeName : M W string :=
  answer <- question themeNameQuery ;;
  ret (if truthy (trim answer) then trim answer else defaultThemeName).

(** Lines 84-101 *)
Definition promptStoreUrl : M W string :=
  fun st =>
    let '(r, rest, ev) := storeUrlAnswers (stdin st) in
    (r, {| sys := sys st; stdin := rest |}, ev).

(** Lines 104-114 *)
Definition promptGitInit : M W bool :=
  answer <- question gitInitQuery ;; ret (yes answer).

(** Lines 117-127 *)
Definition promptInstallDeps : M W bool :=
  answer <- question installDepsQuery ;; ret (yes answer).

(** Lines 63-139 *)
Definition promptUser : M W config :=
  emit CreateInterface ;;
  name <- promptThemeName ;;
  store <- promptStoreUrl ;;
  git <- promptGitInit ;;
  install <- promptInstallDeps ;;
  emit RlClose ;;
  ret {| themeName := name; storeUrl := store;
         initGit := git; installDeps := install |}.

(** Lines 9-140: the input collector. *)
Definition collectInput (args : list string) : M W config :=
  if helpFlag args then showHelp
  else if nonInteractive args then nonInteractiveInput args
  else promptUser.

(** Lines 143-145 *)
Definition createDirectory (cfg : config) : M W unit :=
  present <- observe (ExistsSync (themeName cfg))
               (existsSync node (themeName cfg)) ;;
  if present then ret tt
  else perform (MkdirSync (themeName cfg)) (mkdirSync node (themeName cfg)).

(** Lines 148-156 *)
Definition runCommand (command errorMessage : string) : M W bool :=
  tryCatch
    (perform (ExecSync command) (execSync node command) ;; ret true)
    (fun message =>
       emit (ConsoleError (errorMessage ++ ": " ++ message)) ;; ret false).

(** Lines 159-170 *)
Definition cloneRepository (cfg : config) : M W unit :=
  emit (ConsoleLog ("✨ Creating a new Shopify theme called "
                    ++ themeName cfg ++ "...")) ;;
  emit (SpinnerStart "Cloning repository...") ;;
  success <- runCommand (gitCheckoutCommand (themeName cfg))
               "Failed to checkout the repo" ;;
  if success then emit (SpinnerSucceed "Repository cloned successfully")
  else emit (SpinnerFail "Failed to clone repository") ;; exit 1.

Definition readmePath (cfg : config) : string :=
  pathJoin node (cwd node) (themeName cfg) "README.md".
Definition packagePath (cfg : config) : string :=
  pathJoin node (cwd node) (themeName cfg) "package.json".
Definition gitDir (cfg : config) : string :=
  pathJoin node (cwd node) (themeName cfg) ".git".

(** Lines 178-183 *)
Definition updateReadme (cfg : config) : M W unit :=
  present <- observe (ExistsSync (readmePath cfg))
               (existsSync node (readmePath cfg)) ;;
  if present then
    readmeContent <- attempt (ReadFileSync (readmePath cfg))
                       (readFileSync node (readmePath cfg)) ;;
    let data := Readme.replaceHeading readmeContent (themeName cfg) in
    perform (WriteFileSync (readmePath cfg) data)
      (writeFileSync node (readmePath cfg) data)
  else ret tt.

(** Lines 186-200 *)
Definition updatePackage (cfg : config) : M W unit :=
  present <- observe (ExistsSync (packagePath cfg))
               (existsSync node (packagePath cfg)) ;;
  if present then
    text <- attempt (ReadFileSync (packagePath cfg))
              (readFileSync node (packagePath cfg)) ;;
    packageJson <- lift (JSON_parse node text) ;;
    packageJson' <- lift (rewriteManifest (strictMode node)
                            (typeErrorMessage node)
                            (themeName cfg) (storeUrl cfg) packageJson) ;;
    let data := JSON_stringify node packageJson' in
    perform (WriteFileSync (packagePath cfg) data)
      (writeFileSync node (packagePath cfg) data)
  else ret tt.

(** Lines 173-205 *)
Definition updateProjectFiles (cfg : config) : M W unit :=
  emit (SpinnerStart "Updating project files...") ;;
  tryCatch
    (updateReadme cfg ;;
     updatePackage cfg ;;
     emit (SpinnerSucceed "Project files updated successfully"))
    (fun message =>
       emit (SpinnerFail ("Failed to update project files: " ++ message))).

(** Lines 208-229 *)
Definition initGitRepository (cfg : config) : M W unit :=
  if initGit cfg then
    emit (SpinnerStart "Initializing git repository...") ;;
    present <- observe (ExistsSync (gitDir cfg))
                 (existsSync node (gitDir cfg)) ;;
    (if present then
       let command := removeCommand (platform node) (gitDir cfg) in
       perform (ExecSync command) (execSync node command)
     else ret tt) ;;
    success <- runCommand (gitInitCommand (themeName cfg))
                 "Failed to initialize git repository" ;;
    if success
    then emit (SpinnerSucceed "Git repository initialized successfully")
    else emit (SpinnerFail "Failed to initialize git repository")
  else ret tt.

(** Lines 232-242 *)
Definition installDependencies (cfg : config) : M W unit :=
  if installDeps cfg then
    emit (SpinnerStart "Installing dependencies...") ;;
    success <- runCommand (installCommand (themeName cfg))
                 "Failed to install dependencies" ;;
    if success
    then emit (SpinnerSucceed "Dependencies installed successfully")
    else emit (SpinnerFail "Failed to install dependencies")
  else ret tt.

(** Lines 245-257 *)
Definition displayCompletion (cfg : config) : M W unit :=
  emit (ConsoleLog (nl ++ "🎉 Success! Created " ++ themeName cfg ++ " at "
                    ++ cwd node ++ "/" ++ themeName cfg)) ;;
  emit (ConsoleLog (nl ++ "Inside that directory, you can run several commands:")) ;;
  emit (ConsoleLog "  npm run dev     - Start development server") ;;
  emit (ConsoleLog "  npm run build   - Build for production") ;;
  emit (ConsoleLog (nl ++ "We suggest that you begin by typing:")) ;;
  emit (ConsoleLog ("  cd " ++ themeName cfg)) ;;
  (if installDeps cfg then ret tt else emit (ConsoleLog "  npm install")) ;;
  emit (ConsoleLog ("  npm run dev" ++ nl)) ;;
  emit (ConsoleLog ("Happy coding! 🚀" ++ nl)).

(** What follows the metadata rewrite: lines 207-257. *)
Definition finish (cfg : config) : M W unit :=
  initGitRepository cfg ;;
  installDependencies cfg ;;
  displayCompletion cfg.

(** Lines 142-257: the pipeline, once the input is collected. *)
Definition scaffold (cfg : config) : M W unit :=
  createDirectory cfg ;;
  cloneRepository cfg ;;
  updateProjectFiles cfg ;;
  finish cfg.

(** The whole script; a run that reaches the end of the file leaves through
    exit code 0. *)
Definition main (args : list string) : M W unit :=
  cfg <- collectInput args ;;
  scaffold cfg ;;
  exit 0.

End Script.

(** ** A machine in memory

    An implementation of [Node] to run the script on: files and directories
    by absolute path, a shell given as a function, and [JSON] for the
    values that hold no number and no character that needs an escape.  On
    those it answers as Node does. *)

Module Memory.

Record machine : Type := {
  files : list (string * string);
  dirs : list string
}.

Definition home : string := "/work".

Definition join (a b c : string) : string := a ++ "/" ++ b ++ "/" ++ c.

Definition resolve (p : string) : string :=
  if startsWith p "/" then p else home ++ "/" ++ p.

Fixpoint lookup (fs : list (string * string)) (p : string) : option string :=
  match fs with
  | [] => None
  | (q, c) :: rest => if q =? p then Some c else lookup rest p
  end.

Fixpoint store (fs : list (string * string)) (p c : string)
  : list (string * string) :=
  match fs with
  | [] => [(p, c)]
  | (q, d) :: rest => if q =? p then (p, c) :: rest else (q, d) :: store rest p c
  end.

Definition isDir (m : machine) (p : string) : bool :=
  existsb (String.eqb p) (dirs m).

Definition exists_ (p : string) (m : machine) : bool :=
  isDir m (resolve p) ||
  match lookup (files m) (resolve p) with Some _ => true | None => false end.

Definition mkdir (p : string) (m : machine) : machine * res unit :=
  if exists_ p m then (m, Thrown ("EEXIST: file already exists, mkdir '" ++ p ++ "'"))
  else ({| files := files m; dirs := resolve p :: dirs m |}, Returned tt).

Definition read (p : string) (m : machine) : res string :=
  if isDir m (resolve p)
  then Thrown "EISDIR: illegal operation on a directory, read"
  else match lookup (files m) (resolve p) with
       | Some c => Returned c
       | None => Thrown ("ENOENT: no such file or directory, open '" ++ p ++ "'")
       end.

Definition write (p c : string) (m : machine) : machine * res unit :=
  if isDir m (resolve p)
  then (m, Thrown ("EISDIR: illegal operation on a directory, open '" ++ p ++ "'"))
  else ({| files := store (files m) (resolve p) c; dirs := dirs m |}, Returned tt).

(** *** JSON without numbers and escapes *)

Definition jsonSpace (c : ascii) : bool :=
  Ascii.eqb c " " || Ascii.eqb c "009"%char ||
  Ascii.eqb c "010"%char || Ascii.eqb c "013"%char.

Fixpoint skipSpace (s : string) : string :=
  match s with
  | String c s' => if jsonSpace c then skipSpace s' else s
  | EmptyString => s
  end.

Fixpoint drop (n : nat) (s : string) : string :=
  match n, s with
  | S k, String _ s' => drop k s'
  | _, _ => s
  end.

(** The characters up to the closing quote, and what follows it. *)
Fixpoint stringBody (s : string) : option (string * string) :=
  match s with
  | EmptyString => None
  | String c s' =>
      if Ascii.eqb c "034"%char then Some (EmptyString, s')
      else if Ascii.eqb c "\" || (nat_of_ascii c <? 32)%nat then None
      else match stringBody s' with
           | Some (b, r) => Some (String c b, r)
           | None => None
           end
  end.

Inductive expecting : Type :=
| AValue
| Items (done : list jsval)
| Members (done : list (string * jsval)).

(** One parser for values, for the items of an array after its bracket and
    for the members of an object after its brace. *)
Fixpoint parse (fuel : nat) (e : expecting) (s : string)
  : option (jsval * string) :=
  match fuel with
  | O => None
  | S fuel' =>
      let s := skipSpace s in
      match e with
      | AValue =>
          if startsWith s "null" then Some (VNull, drop 4 s)
          else if startsWith s "true" then Some (VBool true, drop 4 s)
          else if startsWith s "false" then Some (VBool false, drop 5 s)
          else
            match s with
            | String c r =>
                if Ascii.eqb c "034"%char then
                  match stringBody r with
                  | Some (b, r') => Some (VStr b, r')
                  | None => None
                  end
                else if Ascii.eqb c "[" then
                  match skipSpace r with
                  | String "]" r' => Some (VArr [] [], r')
                  | _ => parse fuel' (Items []) r
                  end
                else if Ascii.eqb c "{" then
                  match skipSpace r with
                  | String "}" r' => Some (VObj [], r')
                  | _ => parse fuel' (Members []) r
                  end
                else None
            | EmptyString => None
            end
      | Items done =>
          match parse fuel' AValue s with
          | Some (v, r) =>
              match skipSpace r with
              | String "," r' => parse fuel' (Items (done ++ [v])) r'
              | String "]" r' => Some (VArr (done ++ [v]) [], r')
              | _ => None
              end
          | None => None
          end
      | Members done =>
          match s with
          | String c r =>
              if Ascii.eqb c "034"%char then
                match stringBody r with
                | Some (k, r1) =>
                    match skipSpace r1 with
                    | String ":" r2 =>
                        match parse fuel' AValue r2 with
                        | Some (v, r3) =>
                            match skipSpace r3 with
                            | String "," r4 =>
                                parse fuel' (Members (Props.set done k v)) r4
                            | String "}" r4 =>
                                Some (VObj (Props.set done k v), r4)
                            | _ => None
                            end
                        | None => None
                        end
                    | _ => None
                    end
                | None => None
                end
              else None
          | EmptyString => None
          end
      end
  end.

Definition jsonParse (text : string) : res jsval :=
  match parse (S (String.length text)) AValue text with
  | Some (v, r) =>
      match skipSpace r with
      | EmptyString => Returned v
      | _ => Thrown "Unexpected non-whitespace character after JSON"
      end
  | None => Thrown "Unexpected token in JSON"
  end.

Definition quoted (s : string) : string := dquote ++ s ++ dquote.

(** [JSON.stringify(v, null, 2)], [v] printed at indentation [ind]. *)
Fixpoint print (ind : string) (v : jsval) {struct v} : string :=
  match v with
  | VNull => "null"
  | VBool true => "true"
  | VBool false => "false"
  | VNum _ => "null"
  | VStr s => quoted s
  | VArr [] _ => "[]"
  | VArr items _ =>
      ("[" ++ nl ++
      (fix go (l : list jsval) : string :=
         match l with
         | [] => EmptyString
         | x :: r =>
             (ind ++ "  " ++ print (ind ++ "  ") x ++
              match r with
              | [] => EmptyString
              | _ => "," ++ nl ++ go r
              end)%string
         end) items
      ++ nl ++ ind ++ "]")%string
  | VObj [] => "{}"
  | VObj ps =>
      ("{" ++ nl ++
      (fix go (l : list (string * jsval)) : string :=
         match l with
         | [] => EmptyString
         | (k, x) :: r =>
             (ind ++ "  " ++ quoted k ++ ": " ++ print (ind ++ "  ") x ++
              match r with
              | [] => EmptyString
              | _ => "," ++ nl ++ go r
              end)%string
         end) ps
      ++ nl ++ ind ++ "}")%string
  end.

Definition typeErrorText (o : option jsval) (k : string) : string :=
  match o with
  | None => "Cannot set properties of undefined (setting '" ++ k ++ "')"
  | Some VNull => "Cannot set properties of null (setting '" ++ k ++ "')"
  | Some _ => "Cannot create property '" ++ k ++ "' on a primitive"
  end.

(** The machine with [shell] as its [execSync]. *)
Definition node (shell : string -> machine -> machine * res unit)
  : Node machine :=
  {| cwd := home;
     platform := "linux";
     strictMode := false;
     typeErrorMessage := typeErrorText;
     pathJoin := join;
     existsSync := exists_;
     mkdirSync := mkdir;
     readFileSync := read;
     writeFileSync := write;
     execSync := shell;
     JSON_parse := jsonParse;
     JSON_stringify := print "" |}.

(** A shell whose [git clone] into [name] brings a readme, a manifest and
    the template's history, and whose other commands succeed and change
    nothing. *)
Definition cloning (name readme manifest : string)
  (command : string) (m : machine) : machine * res unit :=
  if command =? gitCheckoutCommand name then
    ({| files := store (store (files m)
                          (join home name "README.md") readme)
                   (join home name "package.json") manifest;
        dirs := join home name ".git" :: dirs m |},
     Returned tt)
  else (m, Returned tt).

(** A shell on which every command fails. *)
Definition failing (command : string) (m : machine) : machine * res unit :=
  (m, Thrown ("Command failed: " ++ command)).

Definition empty : machine := {| files := []; dirs := [] |}.

Definition start (m : machine) (lines : list string) : state machine :=
  {| sys := m; stdin := lines |}.

(** A readme and manifests for the template. *)
Definition sampleReadme : string := "# Starter theme" ++ nl ++ "About".
Definition sampleManifest : string :=
  "{" ++ quoted "name" ++ ": " ++ quoted "starter" ++ "}".
Definition brokenManifest : string := "{" ++ quoted "name" ++ ": ".

(** The template cloned into [my-theme], before the rewrite. *)
Definition cloned (manifest : string) : machine :=
  {| files := [(join home "my-theme" "README.md", sampleReadme);
               (join home "my-theme" "package.json", manifest)];
     dirs := [join home "my-theme" ".git"; (home ++ "/my-theme")%string] |}.

(** A shell that clones as [cloning] does and on which every other
    command fails. *)
Definition cloningOnly (name readme manifest : string)
  (command : string) (m : machine) : machine * res unit :=
  if command =? gitCheckoutCommand name
  then cloning name readme manifest command m
  else failing command m.

(** A shell that clones as [cloning] does and removes the [.git] directory
    of [name] when told to; every other command fails on it. *)
Definition cloningAndRemoving (name readme manifest : string)
  (command : string) (m : machine) : machine * res unit :=
  if command =? gitCheckoutCommand name
  then cloning name readme manifest command m
  else if command =? removeCommand "linux" (join home name ".git")
  then ({| files := files m;
           dirs := filter (fun d => negb (d =? join home name ".git"))
                     (dirs m) |},
        Returned tt)
  else failing command m.


(** The machine on a file system that refuses to make directories. *)
Definition readOnly : Node machine :=
  {| cwd := home;
     platform := "linux";
     strictMode := false;
     typeErrorMessage := typeErrorText;
     pathJoin := join;
     existsSync := exists_;
     mkdirSync := fun p m =>
       (m, Thrown ("EACCES: permission denied, mkdir '" ++ p ++ "'")%string);
     readFileSync := read;
     writeFileSync := write;
     execSync := failing;
     JSON_parse := jsonParse;
     JSON_stringify := print "" |}.

End Memory.

(** ** Reading a run *)

(** The commands handed to the shell, in order. *)
Fixpoint commands (ev : list event) : list string :=
  match ev with
  | [] => []
  | ExecSync c :: rest => c :: commands rest
  | _ :: rest => commands rest
  end.

(** The paths written to, in order. *)
Fixpoint written (ev : list event) : list string :=
  match ev with
  | [] => []
  | WriteFileSync p _ :: rest => p :: written rest
  | _ :: rest => written rest
  end.

(** Every event a computation can cause satisfies [P]. *)
Definition emits {W A : Type} (P : event -> Prop) (m : M W A) : Prop :=
  forall st, Forall P (snd (m st)).

(** The events of one rejected answer to the store prompt. *)
Definition retry : list event :=
  [Question storeUrlQuery; ConsoleLog storeUrlRetry].

(** No command is run. *)
Definition quiet (e : event) : Prop :=
  match e with
  | ExecSync _ | MkdirSync _ | WriteFileSync _ _ | ReadFileSync _
  | ExistsSync _ => False
  | _ => True
  end.

(** The only commands are the clone and the install of [name]. *)
Definition cloneOrInstall (name : string) (e : event) : Prop :=
  match e with
  | ExecSync c => c = gitCheckoutCommand name \/ c = installCommand name
  | _ => True
  end.


(** What the clone step leaves behind it when the command fails. *)
Definition cloneFailure (name message : string) : list event :=
  [ConsoleLog ("✨ Creating a new Shopify theme called " ++ name ++ "...")%string;
   SpinnerStart "Cloning repository...";
   ExecSync (gitCheckoutCommand name);
   ConsoleError ("Failed to checkout the repo: " ++ message)%string;
   SpinnerFail "Failed to clone repository"].


(** An argument that [args.forEach] reads a value from. *)
Definition isFlag (arg : string) : bool :=
  isStoreFlag arg || isGitFlag arg || isInstallFlag arg.

(** The event is no command. *)
Definition noCommand (e : event) : Prop :=
  match e with
  | ExecSync _ => False
  | _ => True
  end.

(** The event makes no directory. *)
Definition noMkdir (e : event) : Prop :=
  match e with
  | MkdirSync _ => False
  | _ => True
  end.

(** The exit codes a computation can leave through satisfy [Q]. *)
Definition exitCodes {W A : Type} (Q : nat -> Prop) (m : M W A) : Prop :=
  forall st c, fst (fst (m st)) = Exit c -> Q c.

(** The reminder of the completion message. *)
Definition installReminder : event := ConsoleLog "  npm install".

(** The reports that precede exit code 1. *)
Definition fatalReports : list event :=
  [ConsoleError themeNameRequired; ConsoleError storeUrlInvalid;
   SpinnerFail "Failed to clone repository"].

(** The commands of a run that reaches its end, given whether the [.git]
    directory was found and removed. *)
Definition completedCommands (os dir : string) (cfg : config) (removed : bool)
  : list string :=
  [gitCheckoutCommand (themeName cfg)]
  ++ (if initGit cfg
      then (if removed then [removeCommand os dir] else [])
           ++ [gitInitCommand (themeName cfg)]
      else [])
  ++ (if installDeps cfg then [installCommand (themeName cfg)] else []).

(** * Properties *)

Unset Implicit Arguments.

(** ** Strings *)

Example endsWith_store : endsWith "foo.myshopify.com" storeSuffix = true.
Proof. reflexivity. Qed.

Example endsWith_needs_the_dot : endsWith "myshopify.com" storeSuffix = false.
Proof. reflexivity. Qed.

Example trim_both_ends : trim "  a b  " = "a b".
Proof. reflexivity. Qed.

Example split_every_separator : split "=" "--store=a=b" = ["--store"; "a"; "b"].
Proof. reflexivity. Qed.

Example toLowerCase_mixed : toLowerCase "TrUe" = "true".
Proof. reflexivity. Qed.

Lemma length_append (a b : string) :
  String.length (a ++ b)%string = String.length a + String.length b.
Proof. induction a as [|c a IH]; simpl; [reflexivity | now rewrite IH]. Qed.

(** [endsWith] is the suffix relation. *)
Lemma endsWith_spec (s suf : string) :
  endsWith s suf = true <-> exists p, s = (p ++ suf)%string.
Proof.
  split.
  - induction s as [|c s IH]; simpl; intros H.
    + exists "". simpl. rewrite orb_false_r in H. now apply String.eqb_eq.
    + apply orb_true_iff in H as [H|H].
      * exists "". now apply String.eqb_eq.
      * destruct (IH H) as [p ->]. now exists (String c p).
  - intros [p ->]. induction p as [|c p IH].
    + destruct suf; cbn [append endsWith]; rewrite String.eqb_refl;
        reflexivity.
    + cbn [append endsWith]. rewrite IH. apply orb_true_r.
Qed.



(** [startsWith] is the prefix relation. *)
Lemma startsWith_spec (s p : string) :
  startsWith s p = true <-> exists r, s = (p ++ r)%string.
Proof.
  split.
  - revert s. induction p as [|c p IH]; intros s H.
    + now exists s.
    + destruct s as [|d s]; simpl in H; [discriminate|].
      apply andb_true_iff in H as [Hc H]. apply Ascii.eqb_eq in Hc as ->.
      destruct (IH _ H) as [r ->]. now exists r.
  - intros [r ->]. induction p as [|c p IH]; simpl; [reflexivity|].
    now rewrite Ascii.eqb_refl, IH.
Qed.

Lemma split_not_nil (sep : ascii) (s : string) : split sep s <> [].
Proof.
  induction s as [|c s IH]; simpl; [discriminate|].
  destruct (Ascii.eqb c sep); [discriminate|].
  destruct (split sep s); [contradiction | discriminate].
Qed.

(** A string without the separator is its own single field. *)
Lemma split_without_separator (sep : ascii) (s : string) :
  contains sep s = false -> split sep s = [s].
Proof.
  induction s as [|c s IH]; simpl; intros H; [reflexivity|].
  apply orb_false_iff in H as [Hc Hs].
  rewrite Hc, (IH Hs). reflexivity.
Qed.

(** The first field does not reach into what follows a separator. *)
Lemma split_app_separator (sep : ascii) (a b : string) :
  contains sep a = false ->
  split sep (a ++ String sep b)%string = a :: split sep b.
Proof.
  induction a as [|c a IH]; simpl; intros H.
  - now rewrite Ascii.eqb_refl.
  - apply orb_false_iff in H as [Hc Ha].
    rewrite Hc, (IH Ha). reflexivity.
Qed.

(** An argument with a separator has a field of index 1. *)
Lemma split_second_field (sep : ascii) (s : string) :
  contains sep s = true ->
  exists a b rest, split sep s = a :: b :: rest.
Proof.
  induction s as [|c s IH]; simpl; intros H; [discriminate|].
  destruct (Ascii.eqb c sep) eqn:E.
  - destruct (split sep s) as [|b rest] eqn:S.
    + now apply split_not_nil in S.
    + now exists "", b, rest.
  - simpl in H. destruct (IH H) as (a & b & rest & ->).
    now exists (String c a), b, rest.
Qed.

Lemma contains_app_r (c : ascii) (a b : string) :
  contains c b = true -> contains c (a ++ b)%string = true.
Proof.
  induction a as [|d a IH]; simpl; intros H; [exact H|].
  rewrite (IH H). apply orb_true_r.
Qed.

Lemma flag_has_separator (p arg : string) :
  contains "=" p = true -> startsWith arg p = true -> contains "=" arg = true.
Proof.
  intros Hp H. apply startsWith_spec in H as [r ->].
  induction p as [|c p IH]; simpl in *; [discriminate|].
  apply orb_true_iff in Hp as [Hc|Hp].
  - now rewrite Hc.
  - rewrite (IH Hp). apply orb_true_r.
Qed.

(** [arg.split("=")[1]] is never [undefined] where the script reads it. *)
Lemma flagValue_defined (arg : string) :
  isStoreFlag arg = true \/ isGitFlag arg = true \/ isInstallFlag arg = true ->
  nth_error (split "=" arg) 1 = Some (flagValue arg).
Proof.
  intros H.
  assert (C : contains "=" arg = true).
  { unfold isStoreFlag, isGitFlag, isInstallFlag in H.
    repeat rewrite orb_true_iff in H.
    destruct H as [[H|H]|[[H|H]|[H|H]]];
      (eapply flag_has_separator; [|exact H]); reflexivity. }
  destruct (split_second_field _ _ C) as (a & b & rest & E).
  unfold flagValue. rewrite E. reflexivity.
Qed.

(** The value of a store flag is what follows the flag, when that holds no
    further ["="]. *)
Lemma flagValue_store (flag url : string) :
  flag = "--store=" \/ flag = "-s=" ->
  contains "=" url = false ->
  isStoreFlag (flag ++ url)%string = true /\
  flagValue (flag ++ url)%string = url.
Proof.
  intros [->| ->] H; split; try reflexivity; unfold flagValue.
  - change ("--store=" ++ url)%string with ("--store" ++ String "=" url)%string.
    rewrite split_app_separator by reflexivity.
    now rewrite split_without_separator.
  - change ("-s=" ++ url)%string with ("-s" ++ String "=" url)%string.
    rewrite split_app_separator by reflexivity.
    now rewrite split_without_separator.
Qed.

(** ** Command-line flags *)

Lemma parseArg_keeps_store (acc : string * bool * bool) (arg : string) :
  isStoreFlag arg = false -> fst (fst (parseArg acc arg)) = fst (fst acc).
Proof.
  intros H. destruct acc as [[s g] i]. unfold parseArg. rewrite H.
  destruct (isGitFlag arg); [reflexivity|].
  destruct (isInstallFlag arg); reflexivity.
Qed.

Lemma fold_parseArg_keeps_store (post : list string) :
  forallb (fun a => negb (isStoreFlag a)) post = true ->
  forall acc, fst (fst (fold_left parseArg post acc)) = fst (fst acc).
Proof.
  induction post as [|a post IH]; simpl; intros H acc; [reflexivity|].
  apply andb_true_iff in H as [Ha Hp].
  rewrite (IH Hp). apply parseArg_keeps_store.
  now apply negb_true_iff.
Qed.

(** The last store flag decides [storeUrl]. *)
Lemma parseArgs_last_store (pre post : list string) (flag url : string) :
  flag = "--store=" \/ flag = "-s=" ->
  contains "=" url = false ->
  forallb (fun a => negb (isStoreFlag a)) post = true ->
  fst (fst (parseArgs (pre ++ (flag ++ url)%string :: post))) = url.
Proof.
  intros Hf Hu Hp. unfold parseArgs.
  rewrite fold_left_app. simpl.
  rewrite (fold_parseArg_keeps_store _ Hp).
  destruct (flagValue_store _ _ Hf Hu) as [Hs Hv].
  destruct (fold_left parseArg pre ("", true, true)) as [[s g] i].
  unfold parseArg. rewrite Hs, Hv. reflexivity.
Qed.

(** ** Computations *)

Section Rules.
Context {W : Type}.
Variable P : event -> Prop.

Lemma emits_ret {A} (a : A) : emits P (ret (W := W) a).
Proof. intros st. constructor. Qed.

Lemma emits_exit {A} (c : nat) : emits P (exit (W := W) (A := A) c).
Proof. intros st. constructor. Qed.

Lemma emits_throw {A} (m : string) : emits P (throw (W := W) (A := A) m).
Proof. intros st. constructor. Qed.

Lemma emits_lift {A} (r : res A) : emits P (lift (W := W) r).
Proof. destruct r; [apply emits_throw | apply emits_ret]. Qed.

Lemma emits_emit (e : event) : P e -> emits P (emit (W := W) e).
Proof. intros H st. simpl. auto. Qed.

Lemma emits_observe {A} (e : event) (f : W -> A) :
  P e -> emits P (observe e f).
Proof. intros H st. simpl. auto. Qed.

Lemma emits_attempt {A} (e : event) (f : W -> res A) :
  P e -> emits P (attempt e f).
Proof. intros H st. unfold attempt. destruct (f (sys st)); simpl; auto. Qed.

Lemma emits_perform (e : event) (f : W -> W * res unit) :
  P e -> emits P (perform e f).
Proof.
  intros H st. unfold perform. destruct (f (sys st)) as [w [m|u]]; simpl; auto.
Qed.

Lemma emits_question (q : string) : P (Question q) -> emits P (question (W := W) q).
Proof. intros H st. unfold question. destruct (stdin st); simpl; auto. Qed.

Lemma emits_bind {A B} (m : M W A) (f : A -> M W B) :
  emits P m -> (forall a, emits P (f a)) -> emits P (bind m f).
Proof.
  intros Hm Hf st. unfold bind. specialize (Hm st).
  destruct (m st) as [[[a|c|e|] st1] ev1]; simpl in *; auto.
  specialize (Hf a st1). destruct (f a st1) as [[r st2] ev2]; simpl in *.
  apply Forall_app. auto.
Qed.

Lemma emits_tryCatch {A} (m : M W A) (h : string -> M W A) :
  emits P m -> (forall e, emits P (h e)) -> emits P (tryCatch m h).
Proof.
  intros Hm Hh st. unfold tryCatch. specialize (Hm st).
  destruct (m st) as [[[a|c|e|] st1] ev1]; simpl in *; auto.
  specialize (Hh e st1). destruct (h e st1) as [[r st2] ev2]; simpl in *.
  apply Forall_app. auto.
Qed.

Lemma storeUrlAnswers_emits (answers : list string) :
  P (Question storeUrlQuery) -> P (ConsoleLog storeUrlRetry) ->
  Forall P (snd (storeUrlAnswers answers)).
Proof.
  intros Hq Hl. induction answers as [|a rest IH]; simpl; auto.
  destruct (rejected (trim a)); simpl; auto.
  destruct (storeUrlAnswers rest) as [[r rest'] ev]; simpl in *. auto.
Qed.

Lemma emits_promptStoreUrl :
  P (Question storeUrlQuery) -> P (ConsoleLog storeUrlRetry) ->
  emits P (promptStoreUrl (W := W)).
Proof.
  intros Hq Hl st. unfold promptStoreUrl.
  pose proof (storeUrlAnswers_emits (stdin st) Hq Hl) as H.
  destruct (storeUrlAnswers (stdin st)) as [[r rest] ev]. exact H.
Qed.

End Rules.

(** One step of a proof that a computation's events satisfy a predicate. *)
Ltac emits_step :=
  first
    [ apply emits_bind; [|intros ?]
    | apply emits_tryCatch; [|intros ?]
    | apply emits_ret
    | apply emits_exit
    | apply emits_throw
    | apply emits_lift
    | apply emits_emit
    | apply emits_observe
    | apply emits_attempt
    | apply emits_perform
    | apply emits_question
    | apply emits_promptStoreUrl
    | match goal with
      | |- emits _ (if ?b then _ else _) => destruct b
      | |- emits _ (match ?x with _ => _ end) => destruct x
      end ].

Ltac emits_auto := repeat emits_step; simpl; auto.

Lemma commands_app (a b : list event) :
  commands (a ++ b) = commands a ++ commands b.
Proof.
  induction a as [|e a IH]; simpl; [reflexivity|].
  destruct e; simpl; rewrite ?IH; reflexivity.
Qed.

Lemma commands_quiet (ev : list event) : Forall quiet ev -> commands ev = [].
Proof.
  induction 1 as [|e ev He _ IH]; simpl; [reflexivity|].
  destruct e; simpl in *; auto; contradiction.
Qed.

Lemma commands_cloneOrInstall (name : string) (ev : list event) :
  Forall (cloneOrInstall name) ev ->
  incl (commands ev) [gitCheckoutCommand name; installCommand name].
Proof.
  induction 1 as [|e ev He _ IH]; simpl; [intros x []|].
  destruct e; simpl in *; auto.
  intros x [<-|Hx]; [|now apply IH].
  destruct He as [->| ->]; simpl; auto.
Qed.

(** Case analysis on the answers of the machine to the calls in the goal. *)
Ltac run_calls :=
  repeat
    (simpl;
     match goal with
     | |- context [existsSync ?n ?p ?w] => destruct (existsSync n p w)
     | |- context [readFileSync ?n ?p ?w] =>
         destruct (readFileSync n p w) as [?|?]
     | |- context [writeFileSync ?n ?p ?d ?w] =>
         destruct (writeFileSync n p d w) as [? [?|?]]
     | |- context [mkdirSync ?n ?p ?w] =>
         destruct (mkdirSync n p w) as [? [?|?]]
     | |- context [execSync ?n ?c ?w] =>
         destruct (execSync n c w) as [? [?|?]]
     | |- context [JSON_parse ?n ?t] => destruct (JSON_parse n t) as [?|?]
     | |- context [rewriteManifest ?a ?b ?c ?d ?e] =>
         destruct (rewriteManifest a b c d e) as [?|?]
     end);
  simpl; try reflexivity.

(** Membership in a list that is written out. *)
Ltac find_in := simpl; first [ left; reflexivity | right; find_in ].

Section Steps.
Context {W : Type} (node : Node W).

(** The input collector touches neither the file system nor the shell. *)
Lemma collectInput_quiet (args : list string) :
  emits quiet (collectInput (W := W) args).
Proof.
  unfold collectInput, showHelp, nonInteractiveInput, promptUser,
    promptThemeName, promptGitInit, promptInstallDeps.
  destruct (helpFlag args); [emits_auto|].
  destruct (nonInteractive args).
  - destruct (hd_error args) as [name|]; [|emits_auto].
    destruct (truthy name); [|emits_auto].
    destruct (parseArgs args) as [[s g] i]. emits_auto.
  - emits_auto.
Qed.

(** The usage, character by character as in lines 13-28 of the source. *)
Lemma usage_text :
  usage = "
  Vapor 🧪

  Usage:
    npx create-vapor [theme-name] [options]

  Options:
    --help, -h          Show this help message
    --store, -s         Specify Shopify store URL (e.g., yourstore.myshopify.com)
    --git, -g           Initialize git repository (true/false)
    --install, -i       Install dependencies (true/false)
    --non-interactive   Run in non-interactive mode (requires theme-name)

  Example:
    npx create-vapor my-theme --store=mystore.myshopify.com --git=true --install=true
  ".
Proof. reflexivity. Qed.

(** The character after [Vapor] is U+1F9EA in UTF-8. *)
Lemma usage_emoji :
  substring 9 4 usage
  = String "240" (String "159" (String "167" (String "170" ""))).
Proof. reflexivity. Qed.

Lemma helpFlag_In (args : list string) :
  In "--help" args \/ In "-h" args -> helpFlag args = true.
Proof.
  intros H. unfold helpFlag, includes. apply orb_true_iff.
  destruct H as [H|H]; [left|right]; apply existsb_exists;
    eexists; (split; [exact H | apply String.eqb_refl]).
Qed.

Lemma rejected_true (url : string) :
  url <> "" -> endsWith url storeSuffix = false -> rejected url = true.
Proof.
  intros Hne He. unfold rejected, truthy. rewrite He.
  destruct (String.eqb_spec url ""); [contradiction | reflexivity].
Qed.

(** An empty first argument is the one missing theme name the check of
    line 41 can see. *)
Lemma empty_theme_name_rejected (args : list string) (st : state W) :
  helpFlag ("" :: args) = false ->
  nonInteractive ("" :: args) = true ->
  main node ("" :: args) st = (Exit 1, st, [ConsoleError themeNameRequired]).
Proof.
  intros Hh Hn. unfold main, collectInput. rewrite Hh, Hn. reflexivity.
Qed.

(** In non-interactive mode a store URL that the check of line 57 rejects
    ends the run at once, whatever else the command line holds. *)
Lemma rejected_store_exits (args : list string) (st : state W) :
  helpFlag args = false ->
  nonInteractive args = true ->
  rejected (fst (fst (parseArgs args))) = true ->
  exists message,
    (message = themeNameRequired \/ message = storeUrlInvalid) /\
    main node args st = (Exit 1, st, [ConsoleError message]).
Proof.
  intros Hh Hn Hr.
  unfold main, collectInput. rewrite Hh, Hn. unfold nonInteractiveInput.
  destruct (hd_error _) as [name|].
  - destruct (truthy name).
    + destruct (parseArgs _) as [[s g] i]. simpl in Hr. rewrite Hr.
      exists storeUrlInvalid. split; [now right | reflexivity].
    + exists themeNameRequired. split; [now left | reflexivity].
  - exists themeNameRequired. split; [now left | reflexivity].
Qed.

(** The help branch (lines 12-30), once the statements of the script are
    run: an argument list that holds [--help] or [-h] makes them print the
    usage and leave with exit code 0; that is all they do, whatever the
    other arguments are. *)
Lemma help_prints_usage_and_exits_0 (args : list string) (st : state W) :
  In "--help" args \/ In "-h" args ->
  main node args st = (Exit 0, st, [ConsoleLog usage]).
Proof.
  intros H. unfold main, collectInput.
  rewrite (helpFlag_In _ H). reflexivity.
Qed.

(** C1, amended.  In non-interactive mode, when the last [--store=] or
    [-s=] argument supplies a non-empty store URL without ["="] that does
    not end with [.myshopify.com], the script prints one error and leaves
    with exit code 1, and that is all it does: the machine is as it was,
    no directory is made. *)
Theorem C1_invalid_store_url_rejected_first
  (pre post : list string) (flag url : string) (st : state W) :
  flag = "--store=" \/ flag = "-s=" ->
  helpFlag (pre ++ (flag ++ url)%string :: post) = false ->
  nonInteractive (pre ++ (flag ++ url)%string :: post) = true ->
  forallb (fun a => negb (isStoreFlag a)) post = true ->
  url <> "" ->
  contains "=" url = false ->
  endsWith url ".myshopify.com" = false ->
  exists message,
    (message = themeNameRequired \/ message = storeUrlInvalid) /\
    main node (pre ++ (flag ++ url)%string :: post) st
    = (Exit 1, st, [ConsoleError message]).
Proof.
  intros Hf Hh Hn Hp Hne Hc He.
  apply rejected_store_exits; [exact Hh | exact Hn |].
  rewrite (parseArgs_last_store pre post flag url Hf Hc Hp).
  exact (rejected_true _ Hne He).
Qed.

Lemma written_app (a b : list event) :
  written (a ++ b) = written a ++ written b.
Proof.
  induction a as [|e a IH]; simpl; [reflexivity|].
  destruct e; simpl; rewrite ?IH; reflexivity.
Qed.

Lemma written_quiet (ev : list event) : Forall quiet ev -> written ev = [].
Proof.
  induction 1 as [|e ev He _ IH]; simpl; [reflexivity|].
  destruct e; simpl in *; auto; contradiction.
Qed.

(** The directory step tests for the directory and makes it when it is
    not there. *)
Lemma createDirectory_events (cfg : config) (st st1 : state W)
  (r : outcome unit) (ev : list event) :
  createDirectory node cfg st = (r, st1, ev) ->
  ev = [ExistsSync (themeName cfg)] \/
  ev = [ExistsSync (themeName cfg); MkdirSync (themeName cfg)].
Proof.
  unfold createDirectory, bind, observe, perform, ret. simpl.
  destruct (existsSync node (themeName cfg) (sys st)); simpl.
  - intros [= _ _ <-]. now left.
  - destruct (mkdirSync node (themeName cfg) (sys st)) as [w [m|u]];
      intros [= _ _ <-]; now right.
Qed.

Lemma cloneRepository_failure (cfg : config) (st : state W)
  (w : W) (message : string) :
  execSync node (gitCheckoutCommand (themeName cfg)) (sys st)
  = (w, Thrown message) ->
  cloneRepository node cfg st
  = (Exit 1, {| sys := w; stdin := stdin st |},
     cloneFailure (themeName cfg) message).
Proof.
  intros H.
  unfold cloneRepository, runCommand, bind, tryCatch, perform, emit, exit, ret.
  simpl. rewrite H. reflexivity.
Qed.

Lemma scaffold_clone_failure (args : list string) (cfg : config)
  (st st0 st1 : state W) (ev0 ev1 : list event) (w : W) (message : string) :
  collectInput args st = (Ok cfg, st0, ev0) ->
  createDirectory node cfg st0 = (Ok tt, st1, ev1) ->
  execSync node (gitCheckoutCommand (themeName cfg)) (sys st1)
  = (w, Thrown message) ->
  main node args st
  = (Exit 1, {| sys := w; stdin := stdin st1 |},
     ev0 ++ ev1 ++ cloneFailure (themeName cfg) message).
Proof.
  intros Hc Hd He. unfold main, scaffold, bind.
  rewrite Hc, Hd, (cloneRepository_failure _ _ _ _ He). reflexivity.
Qed.

(** C2.  When the clone command fails, the script leaves with exit code 1
    right after reporting it: the run consists of the input collection,
    the directory step and the clone step, the clone is the only command
    run, and no file is read or written afterwards. *)
Theorem C2_clone_failure_is_fatal
  (args : list string) (cfg : config) (st st0 st1 : state W)
  (ev0 ev1 : list event) (w : W) (message : string) :
  collectInput args st = (Ok cfg, st0, ev0) ->
  createDirectory node cfg st0 = (Ok tt, st1, ev1) ->
  execSync node (gitCheckoutCommand (themeName cfg)) (sys st1)
  = (w, Thrown message) ->
  main node args st
  = (Exit 1, {| sys := w; stdin := stdin st1 |},
     ev0 ++ ev1 ++ cloneFailure (themeName cfg) message)
  /\ commands (ev0 ++ ev1 ++ cloneFailure (themeName cfg) message)
     = [gitCheckoutCommand (themeName cfg)]
  /\ written (ev0 ++ ev1 ++ cloneFailure (themeName cfg) message) = [].
Proof.
  intros Hc Hd He.
  rewrite (scaffold_clone_failure _ _ _ _ _ _ _ _ _ Hc Hd He).
  split; [reflexivity|].
  pose proof (collectInput_quiet args st) as Hq. rewrite Hc in Hq.
  simpl in Hq.
  destruct (createDirectory_events _ _ _ _ _ Hd) as [-> | ->];
    rewrite !commands_app, !written_app,
      (commands_quiet _ Hq), (written_quiet _ Hq); split; reflexivity.
Qed.

(** ** The prompts *)

Lemma rejected_iff (url : string) :
  rejected url = true <-> url <> "" /\ endsWith url ".myshopify.com" = false.
Proof.
  unfold rejected, truthy. rewrite andb_true_iff, !negb_true_iff.
  split; intros [H1 H2]; split; auto.
  - now apply String.eqb_neq.
  - now apply String.eqb_neq.
Qed.

Lemma accepted_iff (url : string) :
  rejected url = false <-> url = "" \/ endsWith url ".myshopify.com" = true.
Proof.
  unfold rejected, truthy. rewrite andb_false_iff, !negb_false_iff.
  now rewrite String.eqb_eq.
Qed.

(** The store prompt asks again after each rejected answer and stops at
    the first one it accepts. *)
Lemma storeUrlAnswers_run (bads : list string) (a : string) (rest : list string) :
  Forall (fun b => rejected (trim b) = true) bads ->
  rejected (trim a) = false ->
  storeUrlAnswers (bads ++ a :: rest)
  = (Ok (if truthy (trim a) then trim a else defaultStoreUrl), rest,
     flat_map (fun _ => retry) bads ++ [Question storeUrlQuery]).
Proof.
  intros Hb Ha. induction Hb as [|b bads Hb _ IH]; simpl.
  - now rewrite Ha.
  - now rewrite Hb, IH.
Qed.

(** With rejected answers only, the store prompt is still asking when
    standard input runs dry. *)
Lemma storeUrlAnswers_all_rejected (bads : list string) :
  Forall (fun b => rejected (trim b) = true) bads ->
  storeUrlAnswers bads
  = (Awaiting, [], flat_map (fun _ => retry) bads ++ [Question storeUrlQuery]).
Proof.
  induction 1 as [|b bads Hb _ IH]; simpl; [reflexivity|].
  now rewrite Hb, IH.
Qed.

(** The four prompts in a row, on answers that see them through. *)
Lemma promptUser_run (w : W) (t : string) (bads : list string)
  (a g i : string) (rest : list string) :
  Forall (fun b => rejected (trim b) = true) bads ->
  rejected (trim a) = false ->
  promptUser {| sys := w; stdin := t :: bads ++ a :: g :: i :: rest |}
  = (Ok {| themeName := if truthy (trim t) then trim t else defaultThemeName;
           storeUrl := if truthy (trim a) then trim a else defaultStoreUrl;
           initGit := yes g;
           installDeps := yes i |},
     {| sys := w; stdin := rest |},
     [CreateInterface; Question themeNameQuery]
     ++ flat_map (fun _ => retry) bads
     ++ [Question storeUrlQuery; Question gitInitQuery;
         Question installDepsQuery; RlClose]).
Proof.
  intros Hb Ha.
  unfold promptUser, promptThemeName, promptGitInit, promptInstallDeps,
    promptStoreUrl, bind, emit, question, ret.
  simpl. rewrite (storeUrlAnswers_run bads a (g :: i :: rest) Hb Ha). simpl.
  rewrite <- !app_assoc. reflexivity.
Qed.

(** Whatever the later answers, the theme name comes from the first line
    and the machine is not touched. *)
Lemma promptUser_themeName (st st0 : state W) (cfg : config)
  (ev0 : list event) (t : string) (rest : list string) :
  stdin st = t :: rest ->
  promptUser st = (Ok cfg, st0, ev0) ->
  themeName cfg = (if truthy (trim t) then trim t else defaultThemeName)
  /\ sys st0 = sys st.
Proof.
  intros Hs.
  unfold promptUser, promptThemeName, promptGitInit, promptInstallDeps,
    promptStoreUrl, bind, emit, question, ret.
  simpl. rewrite Hs. simpl.
  destruct (storeUrlAnswers rest) as [[[u|c|e|] rest1] ev1]; simpl;
    try discriminate.
  destruct rest1 as [|g [|i rest2]]; simpl; try discriminate.
  intros [= <- <- _]. split; reflexivity.
Qed.

Lemma truthy_eqb (s : string) : truthy s = negb (s =? "").
Proof. reflexivity. Qed.

(** C7, amended.  In interactive mode the store prompt asks again after
    every answer that, trimmed, is non-empty and does not end with
    [.myshopify.com], and goes on asking while no other answer comes; the
    store URL is the trimmed text of the first answer that, trimmed, is
    empty (then the default [example-store.myshopify.com] stands in) or
    ends with [.myshopify.com].  The theme-name prompt puts its default in
    place of an answer that is empty once trimmed. *)
Theorem C7_store_prompt_asks_until_accepted
  (args : list string) (w : W) (t : string) (bads : list string)
  (a g i : string) (rest : list string) :
  helpFlag args = false ->
  nonInteractive args = false ->
  Forall (fun b => trim b <> "" /\ endsWith (trim b) ".myshopify.com" = false)
    bads ->
  trim a = "" \/ endsWith (trim a) ".myshopify.com" = true ->
  promptStoreUrl {| sys := w; stdin := bads ++ a :: rest |}
  = (Ok (if trim a =? "" then "example-store.myshopify.com" else trim a),
     {| sys := w; stdin := rest |},
     flat_map (fun _ => [Question storeUrlQuery; ConsoleLog storeUrlRetry])
       bads
     ++ [Question storeUrlQuery])
  /\ promptStoreUrl {| sys := w; stdin := bads |}
     = (Awaiting, {| sys := w; stdin := [] |},
        flat_map (fun _ => [Question storeUrlQuery; ConsoleLog storeUrlRetry])
          bads
        ++ [Question storeUrlQuery])
  /\ promptThemeName {| sys := w; stdin := t :: rest |}
     = (Ok (if trim t =? "" then "shopify-custom-theme" else trim t),
        {| sys := w; stdin := rest |}, [Question themeNameQuery])
  /\ exists cfg,
       collectInput args
         {| sys := w; stdin := t :: bads ++ a :: g :: i :: rest |}
       = (Ok cfg, {| sys := w; stdin := rest |},
          [CreateInterface; Question themeNameQuery]
          ++ flat_map
               (fun _ => [Question storeUrlQuery; ConsoleLog storeUrlRetry])
               bads
          ++ [Question storeUrlQuery; Question gitInitQuery;
              Question installDepsQuery; RlClose])
       /\ storeUrl cfg
          = (if trim a =? "" then "example-store.myshopify.com" else trim a)
       /\ themeName cfg
          = (if trim t =? "" then "shopify-custom-theme" else trim t).
Proof.
  intros Hh Hn Hb Ha.
  assert (Hb' : Forall (fun b => rejected (trim b) = true) bads).
  { eapply Forall_impl; [|exact Hb]. intros b. apply rejected_iff. }
  apply accepted_iff in Ha.
  split; [|split; [|split]].
  - unfold promptStoreUrl. simpl.
    rewrite (storeUrlAnswers_run bads a rest Hb' Ha), truthy_eqb.
    destruct (trim a =? ""); reflexivity.
  - unfold promptStoreUrl. simpl.
    rewrite (storeUrlAnswers_all_rejected bads Hb'). reflexivity.
  - unfold promptThemeName, bind, question, ret. simpl.
    rewrite truthy_eqb. destruct (trim t =? ""); reflexivity.
  - unfold collectInput. rewrite Hh, Hn.
    rewrite (promptUser_run w t bads a g i rest Hb' Ha).
    eexists. split; [reflexivity|]. simpl. rewrite !truthy_eqb.
    split; [destruct (trim a =? "") | destruct (trim t =? "")]; reflexivity.
Qed.

(** C10.  In interactive mode the git flag and the install flag are true
    exactly when the answer to their prompt, trimmed and in lower case, is
    not ["n"]; so the answers [no] and [false] switch the step on. *)
Theorem C10_only_n_declines
  (args : list string) (w : W) (t : string) (bads : list string)
  (a g i : string) (rest : list string) :
  helpFlag args = false ->
  nonInteractive args = false ->
  Forall (fun b => rejected (trim b) = true) bads ->
  rejected (trim a) = false ->
  exists cfg st0 ev0,
    collectInput args {| sys := w; stdin := t :: bads ++ a :: g :: i :: rest |}
    = (Ok cfg, st0, ev0)
    /\ (initGit cfg = true <-> toLowerCase (trim g) <> "n")
    /\ (installDeps cfg = true <-> toLowerCase (trim i) <> "n")
    /\ (In (toLowerCase (trim g)) ["no"; "false"] -> initGit cfg = true)
    /\ (In (toLowerCase (trim i)) ["no"; "false"] -> installDeps cfg = true).
Proof.
  intros Hh Hn Hb Ha.
  unfold collectInput. rewrite Hh, Hn.
  rewrite (promptUser_run w t bads a g i rest Hb Ha).
  do 3 eexists. split; [reflexivity|]. simpl. unfold yes.
  assert (E : forall s, negb (s =? "n") = true <-> s <> "n").
  { intros s. rewrite negb_true_iff. apply String.eqb_neq. }
  repeat split; try apply E.
  - intros [<-|[<-|[]]]; reflexivity.
  - intros [<-|[<-|[]]]; reflexivity.
Qed.

(** ** The pipeline *)

(** What a computation has caused is not undone by what follows it. *)
Lemma bind_events {A B} (m : M W A) (f : A -> M W B) (st : state W) :
  exists ev2, snd (bind m f st) = snd (m st) ++ ev2.
Proof.
  unfold bind. destruct (m st) as [[[a|c|e|] st1] ev1]; simpl;
    try (exists []; now rewrite app_nil_r).
  destruct (f a st1) as [[r st2] ev2]. now exists ev2.
Qed.


Lemma scaffold_cloneOrInstall (cfg : config) :
  initGit cfg = false ->
  emits (cloneOrInstall (themeName cfg)) (scaffold node cfg).
Proof.
  intros H.
  unfold scaffold, finish, createDirectory, cloneRepository,
    updateProjectFiles, updateReadme, updatePackage, initGitRepository,
    installDependencies, displayCompletion, runCommand.
  rewrite H. emits_auto.
Qed.

(** The events of a whole run: those of the input collector, then those of
    the pipeline. *)
Lemma main_events (args : list string) (st : state W) :
  snd (main node args st)
  = match collectInput args st with
    | (Ok cfg, st0, ev0) => ev0 ++ snd (scaffold node cfg st0)
    | (_, _, ev0) => ev0
    end.
Proof.
  unfold main, bind.
  destruct (collectInput args st) as [[[cfg|c|e|] st0] ev0]; try reflexivity.
  destruct (scaffold node cfg st0) as [[[u|c|e|] st1] ev1]; simpl;
    rewrite ?app_nil_r; reflexivity.
Qed.


Lemma quiet_cloneOrInstall (name : string) (e : event) :
  quiet e -> cloneOrInstall name e.
Proof. destruct e; simpl; tauto. Qed.


Lemma gitInitCommand_not_install (name : string) :
  gitInitCommand name <> installCommand name.
Proof.
  intros H. apply (f_equal String.length) in H.
  unfold gitInitCommand, installCommand in H.
  rewrite !length_append in H. simpl in H. lia.
Qed.

(** In a run whose git flag is false the only command lines handed to
    [execSync] are the clone and the install of the theme name: the removal
    command of the [.git] directory (on either platform) and the
    [git init] command of line 223 are not among them.  What a shell makes
    of the theme name inside the two command lines is not said here. *)
Lemma without_git_flag_only_clone_and_install
  (args : list string) (st st0 : state W) (cfg : config) (ev0 : list event) :
  collectInput args st = (Ok cfg, st0, ev0) ->
  initGit cfg = false ->
  incl (commands (snd (main node args st)))
    [gitCheckoutCommand (themeName cfg); installCommand (themeName cfg)]
  /\ ~ In (gitInitCommand (themeName cfg)) (commands (snd (main node args st)))
  /\ forall os dir,
       ~ In (removeCommand os dir) (commands (snd (main node args st))).
Proof.
  intros Hc Hg.
  assert (I : incl (commands (snd (main node args st)))
                [gitCheckoutCommand (themeName cfg);
                 installCommand (themeName cfg)]).
  { apply commands_cloneOrInstall. rewrite main_events, Hc.
    pose proof (collectInput_quiet args st) as Hq. rewrite Hc in Hq.
    apply Forall_app. split.
    - eapply Forall_impl; [apply quiet_cloneOrInstall | exact Hq].
    - apply scaffold_cloneOrInstall. exact Hg. }
  split; [exact I|]. split.
  - intros H. apply I in H. destruct H as [H|[H|[]]].
    + discriminate H.
    + symmetry in H. now apply gitInitCommand_not_install in H.
  - intros os dir H. apply I in H. unfold removeCommand in H.
    destruct (os =? "win32"); destruct H as [H|[H|[]]]; discriminate H.
Qed.

(** ** The manifest *)

Lemma get_set_same (ps : list (string * jsval)) (k : string) (v : jsval) :
  Props.get (Props.set ps k v) k = Some v.
Proof.
  induction ps as [|[k' v'] ps IH]; simpl.
  - now rewrite String.eqb_refl.
  - destruct (k' =? k) eqn:E; simpl.
    + now rewrite String.eqb_refl.
    + now rewrite E.
Qed.

Lemma get_set_other (ps : list (string * jsval)) (k k' : string) (v : jsval) :
  k <> k' -> Props.get (Props.set ps k v) k' = Props.get ps k'.
Proof.
  intros Hk. induction ps as [|[q v'] ps IH]; simpl.
  - apply String.eqb_neq in Hk. now rewrite Hk.
  - destruct (q =? k) eqn:E; simpl.
    + apply String.eqb_eq in E. subst q.
      apply String.eqb_neq in Hk. now rewrite Hk.
    + now rewrite IH.
Qed.

Lemma endsWith_truthy (url : string) :
  endsWith url ".myshopify.com" = true -> truthy url = true.
Proof.
  intros H. apply endsWith_spec in H as [p ->].
  destruct p; reflexivity.
Qed.

(** The assignments on a manifest that is an object whose [config] is
    absent, falsy or an object. *)
Lemma rewriteManifest_object (strict : bool)
  (typeError : option jsval -> string -> string)
  (name url : string) (ps : list (string * jsval)) :
  truthy url = true ->
  truthyVal (Props.get ps "config") = false \/
  (exists cs, Props.get ps "config" = Some (VObj cs)) ->
  exists ps' cs',
    rewriteManifest strict typeError name url (VObj ps) = Returned (VObj ps')
    /\ Props.get ps' "name" = Some (VStr name)
    /\ Props.get ps' "config" = Some (VObj cs')
    /\ Props.get cs' "shopifyStore" = Some (VStr url).
Proof.
  intros Hu Hc. unfold rewriteManifest. simpl. rewrite Hu.
  assert (Hg : Props.get (Props.set ps "name" (VStr name)) "config"
               = Props.get ps "config")
    by (apply get_set_other; discriminate).
  rewrite Hg. destruct Hc as [Hc|[cs Hc]].
  - rewrite Hc. simpl. rewrite get_set_same. simpl.
    eexists. eexists. split; [reflexivity|].
    rewrite get_set_same.
    rewrite !get_set_other by discriminate. rewrite get_set_same.
    repeat split; reflexivity.
  - rewrite Hc. simpl. rewrite Hg, Hc. simpl.
    eexists. eexists. split; [reflexivity|].
    rewrite get_set_same.
    rewrite !get_set_other by discriminate. rewrite !get_set_same.
    repeat split; reflexivity.
Qed.

(** The rewrite step ends normally, whatever happens inside it. *)
Lemma updateProjectFiles_caught (cfg : config) (st : state W) :
  match (updateReadme node cfg ;; updatePackage node cfg) st with
  | (Ok _, st1, ev) =>
      updateProjectFiles node cfg st
      = (Ok tt, st1,
         SpinnerStart "Updating project files..." :: ev
         ++ [SpinnerSucceed "Project files updated successfully"])
  | (Uncaught message, st1, ev) =>
      updateProjectFiles node cfg st
      = (Ok tt, st1,
         SpinnerStart "Updating project files..." :: ev
         ++ [SpinnerFail ("Failed to update project files: " ++ message)])
  | (Exit _, _, _) | (Awaiting, _, _) => False
  end.
Proof.
  unfold updateProjectFiles, updateReadme, updatePackage, bind, tryCatch,
    observe, attempt, perform, lift, emit, ret, throw.
  destruct st as [w0 inp]. run_calls.
Qed.

(** C3, amended.  For a store URL that ends with [.myshopify.com]: when
    the readme part of the rewrite raises nothing and the manifest of the
    cloned directory parses to an object whose [config] is absent, falsy or
    itself an object, the rewrite writes to the manifest the text of an
    object whose [name] is the theme name and whose [config.shopifyStore]
    is exactly that URL, and the machine is left as that write leaves
    it. *)
Theorem C3_manifest_carries_name_and_store_url
  (cfg : config) (st st1 : state W) (ev1 : list event)
  (text : string) (ps : list (string * jsval)) :
  endsWith (storeUrl cfg) ".myshopify.com" = true ->
  updateReadme node cfg st = (Ok tt, st1, ev1) ->
  existsSync node (packagePath node cfg) (sys st1) = true ->
  readFileSync node (packagePath node cfg) (sys st1) = Returned text ->
  JSON_parse node text = Returned (VObj ps) ->
  truthyVal (Props.get ps "config") = false \/
  (exists cs, Props.get ps "config" = Some (VObj cs)) ->
  exists ps' cs' st2 ev2,
    Props.get ps' "name" = Some (VStr (themeName cfg))
    /\ Props.get ps' "config" = Some (VObj cs')
    /\ Props.get cs' "shopifyStore" = Some (VStr (storeUrl cfg))
    /\ updateProjectFiles node cfg st = (Ok tt, st2, ev2)
    /\ In (WriteFileSync (packagePath node cfg)
             (JSON_stringify node (VObj ps'))) ev2
    /\ sys st2
       = fst (writeFileSync node (packagePath node cfg)
                (JSON_stringify node (VObj ps')) (sys st1)).
Proof.
  intros Hu Hr Hx Hread Hparse Hc.
  destruct (rewriteManifest_object (strictMode node) (typeErrorMessage node)
              (themeName cfg) (storeUrl cfg) ps (endsWith_truthy _ Hu) Hc)
    as (ps' & cs' & Hrw & Hn & Hcfg & Hs).
  exists ps', cs'.
  pose proof (updateProjectFiles_caught cfg st) as H.
  unfold bind at 1 in H. rewrite Hr in H.
  unfold updatePackage, bind, observe, attempt, lift, perform, ret in H.
  simpl in H. rewrite Hx, Hread in H. simpl in H.
  rewrite Hparse in H. simpl in H. rewrite Hrw in H. simpl in H.
  destruct (writeFileSync node (packagePath node cfg)
              (JSON_stringify node (VObj ps')) (sys st1)) as [w [m|u]];
    simpl in H; do 2 eexists; (repeat split; [eassumption ..| |]);
    try reflexivity; try exact H;
    simpl; right; apply in_or_app; left; apply in_or_app; right;
    simpl; auto.
Qed.



(** How the rest of the pipeline ends.  Either the [.git] directory was
    there with the git flag set and its removal threw: then that exception
    ends the run.  Or the removal did not throw: then the git step and the
    install step run, each when its flag is set, and the rest of the
    pipeline ends normally. *)
Lemma finish_outcome (cfg : config) (st : state W) :
  forall r st2 ev2,
    finish node cfg st = (r, st2, ev2) ->
    (initGit cfg = true ->
     In (SpinnerStart "Initializing git repository...") ev2)
    /\ ((exists w m,
           initGit cfg = true
           /\ existsSync node (gitDir node cfg) (sys st) = true
           /\ execSync node (removeCommand (platform node) (gitDir node cfg))
                (sys st) = (w, Thrown m)
           /\ r = Uncaught m)
        \/ (r = Ok tt
            /\ (initGit cfg = false
                \/ existsSync node (gitDir node cfg) (sys st) = false
                \/ exists w,
                     execSync node
                       (removeCommand (platform node) (gitDir node cfg))
                       (sys st) = (w, Returned tt))
            /\ (initGit cfg = true ->
                In (ExecSync (gitInitCommand (themeName cfg))) ev2)
            /\ (installDeps cfg = true ->
                In (ExecSync (installCommand (themeName cfg))) ev2))).
Proof.
  intros r st2 ev2.
  unfold finish, initGitRepository, installDependencies, displayCompletion,
    runCommand, bind, tryCatch, observe, perform, emit, ret.
  destruct st as [w0 inp].
  destruct (initGit cfg), (installDeps cfg); run_calls;
    intros [= <- <- <-];
    (split; [intros E; first [discriminate E | find_in]|]);
    first
      [ left; do 2 eexists; repeat split; reflexivity
      | right; split; [reflexivity|];
        split;
        [ first [ left; reflexivity
                | right; left; reflexivity
                | right; right; eexists; repeat f_equal;
                  match goal with |- ?u = tt => destruct u end; reflexivity ]
        | split; intros E; first [discriminate E | find_in] ] ].
Qed.


End Steps.

(** * The script on the machine in memory *)

Module Runs.
Import Memory.

(** The scenario of the specification: [my-theme] with a store, without
    git and install. *)
Example scenario :
  main (node (cloning "my-theme" sampleReadme sampleManifest))
    ["my-theme"; "--store=foo.myshopify.com"; "--git=false";
     "--install=false"; "--non-interactive"]
    (start empty [])
  = (Exit 0,
     start
       {| files :=
            [("/work/my-theme/README.md", ("# my-theme" ++ nl ++ "About")%string);
             ("/work/my-theme/package.json",
              print ""
                (VObj [("name", VStr "my-theme");
                       ("config",
                        VObj [("shopifyStore", VStr "foo.myshopify.com")])]))];
          dirs := ["/work/my-theme/.git"; "/work/my-theme"] |} [],
     [ExistsSync "my-theme"; MkdirSync "my-theme";
      ConsoleLog "✨ Creating a new Shopify theme called my-theme...";
      SpinnerStart "Cloning repository...";
      ExecSync (gitCheckoutCommand "my-theme");
      SpinnerSucceed "Repository cloned successfully";
      SpinnerStart "Updating project files...";
      ExistsSync "/work/my-theme/README.md";
      ReadFileSync "/work/my-theme/README.md";
      WriteFileSync "/work/my-theme/README.md"
        ("# my-theme" ++ nl ++ "About")%string;
      ExistsSync "/work/my-theme/package.json";
      ReadFileSync "/work/my-theme/package.json";
      WriteFileSync "/work/my-theme/package.json"
        (print ""
           (VObj [("name", VStr "my-theme");
                  ("config",
                   VObj [("shopifyStore", VStr "foo.myshopify.com")])]));
      SpinnerSucceed "Project files updated successfully";
      ConsoleLog (nl ++ "🎉 Success! Created my-theme at /work/my-theme")%string;
      ConsoleLog (nl ++ "Inside that directory, you can run several commands:")%string;
      ConsoleLog "  npm run dev     - Start development server";
      ConsoleLog "  npm run build   - Build for production";
      ConsoleLog (nl ++ "We suggest that you begin by typing:")%string;
      ConsoleLog "  cd my-theme";
      ConsoleLog "  npm install";
      ConsoleLog ("  npm run dev" ++ nl)%string;
      ConsoleLog ("Happy coding! 🚀" ++ nl)%string]).
Proof. vm_compute. reflexivity. Qed.

Example manifest_text :
  print ""
    (VObj [("name", VStr "my-theme");
           ("config", VObj [("shopifyStore", VStr "foo.myshopify.com")])])
  = unlines
      [ "{";
        ("  " ++ quoted "name" ++ ": " ++ quoted "my-theme" ++ ",")%string;
        ("  " ++ quoted "config" ++ ": {")%string;
        ("    " ++ quoted "shopifyStore" ++ ": "
         ++ quoted "foo.myshopify.com")%string;
        "  }";
        "}" ].
Proof. reflexivity. Qed.

(** A store value is cut at its second ["="], and a later store flag
    replaces an earlier one. *)
Example store_value_cut_at_separator :
  parseArgs ["--store=shop.myshopify.com=x"] = ("shop.myshopify.com", true, true).
Proof. reflexivity. Qed.

Example later_store_flag_wins :
  parseArgs ["--store=bad"; "-s=ok.myshopify.com"; "--git=False"; "-i=TRUE"]
  = ("ok.myshopify.com", false, true).
Proof. reflexivity. Qed.

Example replaceHeading_first_heading_only :
  Readme.replaceHeading ("intro" ++ nl ++ "## Old" ++ nl ++ "# Later")%string
    "new"
  = ("intro" ++ nl ++ "## new" ++ nl ++ "# Later")%string.
Proof. reflexivity. Qed.

Example replaceHeading_expands_patterns :
  Readme.replaceHeading "# Old" "a$&b$$c$1" = "# a# Oldb$c$1".
Proof. reflexivity. Qed.

End Runs.

(** * The theorems at concrete inputs *)

(** C1 as stated fails: a store URL that does not end with
    [.myshopify.com] is supplied through [--store=], yet the run does not
    stop at it, because a later [--store=] replaces it; the directory is
    made and the run ends with exit code 0. *)
Lemma C1_counterexample_later_store_flag_wins :
  helpFlag ["my-theme"; "--non-interactive"; "--store=bad";
            "--store=ok.myshopify.com"] = false
  /\ nonInteractive ["my-theme"; "--non-interactive"; "--store=bad";
                     "--store=ok.myshopify.com"] = true
  /\ In ("--store=" ++ "bad")%string
       ["my-theme"; "--non-interactive"; "--store=bad";
        "--store=ok.myshopify.com"]
  /\ "bad" <> ""
  /\ endsWith "bad" ".myshopify.com" = false
  /\ fst (fst (main (Memory.node
                       (Memory.cloning "my-theme" Memory.sampleReadme
                          Memory.sampleManifest))
                 ["my-theme"; "--non-interactive"; "--store=bad";
                  "--store=ok.myshopify.com"]
                 (Memory.start Memory.empty [])))
     = Exit 0
  /\ In (MkdirSync "my-theme")
       (snd (main (Memory.node
                     (Memory.cloning "my-theme" Memory.sampleReadme
                        Memory.sampleManifest))
               ["my-theme"; "--non-interactive"; "--store=bad";
                "--store=ok.myshopify.com"]
               (Memory.start Memory.empty []))).
Proof.
  repeat split; try reflexivity.
  - simpl. auto.
  - discriminate.
  - vm_compute. auto.
Qed.

Lemma C1_witness :
  endsWith "bad.example.com" ".myshopify.com" = false
  /\ exists message,
       (message = themeNameRequired \/ message = storeUrlInvalid)
       /\ main (Memory.node Memory.failing)
            (["my-theme"; "--non-interactive"]
             ++ ("--store=" ++ "bad.example.com")%string :: ["--git=false"])
            (Memory.start Memory.empty [])
          = (Exit 1, Memory.start Memory.empty [], [ConsoleError message]).
Proof.
  split; [reflexivity|].
  apply (C1_invalid_store_url_rejected_first (Memory.node Memory.failing)
           ["my-theme"; "--non-interactive"] ["--git=false"]
           "--store=" "bad.example.com" (Memory.start Memory.empty []));
    first [ reflexivity | left; reflexivity | discriminate ].
Defined.

Lemma C2_witness :
  main (Memory.node Memory.failing) ["my-theme"; "--non-interactive"]
    (Memory.start Memory.empty [])
  = (Exit 1,
     Memory.start {| Memory.files := []; Memory.dirs := ["/work/my-theme"] |} [],
     [] ++ [ExistsSync "my-theme"; MkdirSync "my-theme"]
     ++ cloneFailure "my-theme"
          ("Command failed: " ++ gitCheckoutCommand "my-theme"))
  /\ commands
       ([] ++ [ExistsSync "my-theme"; MkdirSync "my-theme"]
        ++ cloneFailure "my-theme"
             ("Command failed: " ++ gitCheckoutCommand "my-theme"))
     = [gitCheckoutCommand "my-theme"]
  /\ written
       ([] ++ [ExistsSync "my-theme"; MkdirSync "my-theme"]
        ++ cloneFailure "my-theme"
             ("Command failed: " ++ gitCheckoutCommand "my-theme"))
     = [].
Proof.
  apply (C2_clone_failure_is_fatal (Memory.node Memory.failing)
           ["my-theme"; "--non-interactive"]
           {| themeName := "my-theme"; storeUrl := "";
              initGit := true; installDeps := true |}
           (Memory.start Memory.empty []) (Memory.start Memory.empty [])
           (Memory.start
              {| Memory.files := []; Memory.dirs := ["/work/my-theme"] |} [])
           [] [ExistsSync "my-theme"; MkdirSync "my-theme"]
           {| Memory.files := []; Memory.dirs := ["/work/my-theme"] |}
           ("Command failed: " ++ gitCheckoutCommand "my-theme"));
    reflexivity.
Defined.

(** C3 as stated fails: the manifest [null] is parseable, the store URL
    ends with [.myshopify.com] and the run reaches the rewrite, yet the
    manifest is not written; it is [null] after the run as before, with
    neither a [name] nor a [config.shopifyStore]. *)
Lemma C3_counterexample_null_manifest :
  endsWith "foo.myshopify.com" ".myshopify.com" = true
  /\ Memory.jsonParse "null" = Returned VNull
  /\ fst (fst (main (Memory.node
                       (Memory.cloning "my-theme" Memory.sampleReadme "null"))
                 ["my-theme"; "--non-interactive";
                  "--store=foo.myshopify.com"; "--git=false";
                  "--install=false"]
                 (Memory.start Memory.empty [])))
     = Exit 0
  /\ Memory.read "/work/my-theme/package.json"
       (sys (snd (fst (main (Memory.node
                               (Memory.cloning "my-theme" Memory.sampleReadme
                                  "null"))
                         ["my-theme"; "--non-interactive";
                          "--store=foo.myshopify.com"; "--git=false";
                          "--install=false"]
                         (Memory.start Memory.empty [])))))
     = Returned "null"
  /\ written
       (snd (main (Memory.node
                     (Memory.cloning "my-theme" Memory.sampleReadme "null"))
               ["my-theme"; "--non-interactive";
                "--store=foo.myshopify.com"; "--git=false"; "--install=false"]
               (Memory.start Memory.empty [])))
     = ["/work/my-theme/README.md"].
Proof. repeat split; vm_compute; reflexivity. Qed.

Lemma C3_witness :
  exists ps' cs' st2 ev2,
    Props.get ps' "name" = Some (VStr "my-theme")
    /\ Props.get ps' "config" = Some (VObj cs')
    /\ Props.get cs' "shopifyStore" = Some (VStr "foo.myshopify.com")
    /\ updateProjectFiles (Memory.node Memory.failing)
         {| themeName := "my-theme"; storeUrl := "foo.myshopify.com";
            initGit := false; installDeps := false |}
         (Memory.start
            {| Memory.files :=
                 [("/work/my-theme/package.json", Memory.sampleManifest)];
               Memory.dirs := ["/work/my-theme"] |} [])
       = (Ok tt, st2, ev2)
    /\ In (WriteFileSync "/work/my-theme/package.json"
             (Memory.print "" (VObj ps'))) ev2
    /\ sys st2
       = fst (Memory.write "/work/my-theme/package.json"
                (Memory.print "" (VObj ps'))
                {| Memory.files :=
                     [("/work/my-theme/package.json", Memory.sampleManifest)];
                   Memory.dirs := ["/work/my-theme"] |}).
Proof.
  apply (C3_manifest_carries_name_and_store_url (Memory.node Memory.failing)
           {| themeName := "my-theme"; storeUrl := "foo.myshopify.com";
              initGit := false; installDeps := false |}
           (Memory.start
              {| Memory.files :=
                   [("/work/my-theme/package.json", Memory.sampleManifest)];
                 Memory.dirs := ["/work/my-theme"] |} [])
           (Memory.start
              {| Memory.files :=
                   [("/work/my-theme/package.json", Memory.sampleManifest)];
                 Memory.dirs := ["/work/my-theme"] |} [])
           [ExistsSync "/work/my-theme/README.md"]
           Memory.sampleManifest
           [("name", VStr "starter")]);
    first [ reflexivity | left; reflexivity ].
Defined.

Example help_wins_over_other_arguments :
  main (Memory.node Memory.failing) ["my-theme"; "--non-interactive"; "-h"]
    (Memory.start Memory.empty ["unread"])
  = (Exit 0, Memory.start Memory.empty ["unread"], [ConsoleLog usage]).
Proof. reflexivity. Qed.

(** C7 as stated fails: the answer [shop.myshopify.com] followed by a
    space is not empty and does not end with [.myshopify.com], yet the
    store prompt is asked once only and the store URL is the answer without
    the space. *)
Lemma C7_counterexample_trailing_space :
  "shop.myshopify.com " <> ""
  /\ endsWith "shop.myshopify.com " ".myshopify.com" = false
  /\ collectInput []
       (Memory.start Memory.empty ["t"; "shop.myshopify.com "; "y"; "y"])
     = (Ok {| themeName := "t"; storeUrl := "shop.myshopify.com";
              initGit := true; installDeps := true |},
        Memory.start Memory.empty [],
        [CreateInterface; Question themeNameQuery; Question storeUrlQuery;
         Question gitInitQuery; Question installDepsQuery; RlClose]).
Proof. split; [discriminate | split; reflexivity]. Qed.

Lemma C7_witness :
  promptStoreUrl
    {| sys := Memory.empty;
       stdin := ["shop"; "shop.example.com "]
                ++ " shop.myshopify.com " :: ["left"] |}
  = (Ok (if trim " shop.myshopify.com " =? ""
         then "example-store.myshopify.com"
         else trim " shop.myshopify.com "),
     {| sys := Memory.empty; stdin := ["left"] |},
     flat_map (fun _ => [Question storeUrlQuery; ConsoleLog storeUrlRetry])
       ["shop"; "shop.example.com "]
     ++ [Question storeUrlQuery])
  /\ promptStoreUrl
       {| sys := Memory.empty; stdin := ["shop"; "shop.example.com "] |}
     = (Awaiting, {| sys := Memory.empty; stdin := [] |},
        flat_map (fun _ => [Question storeUrlQuery; ConsoleLog storeUrlRetry])
          ["shop"; "shop.example.com "]
        ++ [Question storeUrlQuery])
  /\ promptThemeName {| sys := Memory.empty; stdin := "  " :: ["left"] |}
     = (Ok (if trim "  " =? "" then "shopify-custom-theme" else trim "  "),
        {| sys := Memory.empty; stdin := ["left"] |},
        [Question themeNameQuery])
  /\ exists cfg,
       collectInput []
         {| sys := Memory.empty;
            stdin := "  " :: ["shop"; "shop.example.com "]
                     ++ " shop.myshopify.com " :: "y" :: "n" :: ["left"] |}
       = (Ok cfg, {| sys := Memory.empty; stdin := ["left"] |},
          [CreateInterface; Question themeNameQuery]
          ++ flat_map
               (fun _ => [Question storeUrlQuery; ConsoleLog storeUrlRetry])
               ["shop"; "shop.example.com "]
          ++ [Question storeUrlQuery; Question gitInitQuery;
              Question installDepsQuery; RlClose])
       /\ storeUrl cfg
          = (if trim " shop.myshopify.com " =? ""
             then "example-store.myshopify.com"
             else trim " shop.myshopify.com ")
       /\ themeName cfg
          = (if trim "  " =? "" then "shopify-custom-theme" else trim "  ").
Proof.
  apply (C7_store_prompt_asks_until_accepted (W := Memory.machine)
           [] Memory.empty "  " ["shop"; "shop.example.com "]
           " shop.myshopify.com " "y" "n" ["left"]);
    try reflexivity.
  - repeat constructor; discriminate.
  - right. reflexivity.
Defined.



Lemma C10_witness :
  exists cfg st0 ev0,
    collectInput []
      {| sys := Memory.empty;
         stdin := "t" :: ["bad"] ++ "" :: " No " :: " N" :: [] |}
    = (Ok cfg, st0, ev0)
    /\ (initGit cfg = true <-> toLowerCase (trim " No ") <> "n")
    /\ (installDeps cfg = true <-> toLowerCase (trim " N") <> "n")
    /\ (In (toLowerCase (trim " No ")) ["no"; "false"] -> initGit cfg = true)
    /\ (In (toLowerCase (trim " N")) ["no"; "false"] ->
        installDeps cfg = true).
Proof.
  apply (C10_only_n_declines (W := Memory.machine)
           [] Memory.empty "t" ["bad"] "" " No " " N" []);
    try reflexivity.
  repeat constructor.
Defined.

(** The answers [no] and [false] switch a step on; [n] and [N] switch it
    off. *)
Example yes_examples :
  yes "no" = true /\ yes "false" = true /\ yes "" = true
  /\ yes "n" = false /\ yes " N " = false.
Proof. repeat split; reflexivity. Qed.

(** * Further properties of the script *)

(** ** The flags of non-interactive mode *)

(** The field of index 1 is the first field of what follows the first
    ["="]. *)
Lemma flagValue_after (p v : string) :
  contains "=" p = false ->
  flagValue (p ++ String "=" v)%string = hd "" (split "=" v).
Proof.
  intros Hp. unfold flagValue. rewrite split_app_separator by exact Hp.
  simpl. destruct (split "=" v) eqn:E; [|reflexivity].
  now apply split_not_nil in E.
Qed.

Lemma flagValue_plain (p v : string) :
  contains "=" p = false -> contains "=" v = false ->
  flagValue (p ++ String "=" v)%string = v.
Proof.
  intros Hp Hv. rewrite flagValue_after by exact Hp.
  now rewrite split_without_separator.
Qed.

Lemma flagValue_cut (p a b : string) :
  contains "=" p = false -> contains "=" a = false ->
  flagValue (p ++ String "=" (a ++ String "=" b))%string = a.
Proof.
  intros Hp Ha. rewrite flagValue_after by exact Hp.
  now rewrite split_app_separator.
Qed.

Lemma parseArg_keeps_git (acc : string * bool * bool) (arg : string) :
  isGitFlag arg = false -> snd (fst (parseArg acc arg)) = snd (fst acc).
Proof.
  intros H. destruct acc as [[s g] i]. unfold parseArg. rewrite H.
  destruct (isStoreFlag arg); [reflexivity|].
  destruct (isInstallFlag arg); reflexivity.
Qed.

Lemma parseArg_keeps_install (acc : string * bool * bool) (arg : string) :
  isInstallFlag arg = false -> snd (parseArg acc arg) = snd acc.
Proof.
  intros H. destruct acc as [[s g] i]. unfold parseArg. rewrite H.
  destruct (isStoreFlag arg); [reflexivity|].
  destruct (isGitFlag arg); reflexivity.
Qed.

Lemma fold_parseArg_keeps_git (post : list string) :
  forallb (fun a => negb (isGitFlag a)) post = true ->
  forall acc, snd (fst (fold_left parseArg post acc)) = snd (fst acc).
Proof.
  induction post as [|a post IH]; simpl; intros H acc; [reflexivity|].
  apply andb_true_iff in H as [Ha Hp].
  rewrite (IH Hp). apply parseArg_keeps_git. now apply negb_true_iff.
Qed.

Lemma fold_parseArg_keeps_install (post : list string) :
  forallb (fun a => negb (isInstallFlag a)) post = true ->
  forall acc, snd (fold_left parseArg post acc) = snd acc.
Proof.
  induction post as [|a post IH]; simpl; intros H acc; [reflexivity|].
  apply andb_true_iff in H as [Ha Hp].
  rewrite (IH Hp). apply parseArg_keeps_install. now apply negb_true_iff.
Qed.

Lemma fold_parseArg_no_flag (args : list string) :
  forallb (fun a => negb (isFlag a)) args = true ->
  forall acc, fold_left parseArg args acc = acc.
Proof.
  induction args as [|a args IH]; simpl; intros H acc; [reflexivity|].
  apply andb_true_iff in H as [Ha Hp]. rewrite (IH Hp).
  apply negb_true_iff in Ha. unfold isFlag in Ha.
  apply orb_false_iff in Ha as [Ha Hi]. apply orb_false_iff in Ha as [Hs Hg].
  destruct acc as [[s g] i]. unfold parseArg. now rewrite Hs, Hg, Hi.
Qed.

Section Collected.
Context {W : Type} (node : Node W).

(** What non-interactive mode hands on, when it hands anything on: the
    first argument as it is and the three variables of [args.forEach]; it
    asks nothing and leaves the state as it is. *)
Lemma nonInteractive_config (args : list string) (st st0 : state W)
  (cfg : config) (ev0 : list event) :
  helpFlag args = false ->
  nonInteractive args = true ->
  collectInput args st = (Ok cfg, st0, ev0) ->
  hd_error args = Some (themeName cfg)
  /\ truthy (themeName cfg) = true
  /\ parseArgs args = (storeUrl cfg, initGit cfg, installDeps cfg)
  /\ rejected (storeUrl cfg) = false
  /\ st0 = st /\ ev0 = [].
Proof.
  intros Hh Hn. unfold collectInput. rewrite Hh, Hn.
  unfold nonInteractiveInput.
  destruct (hd_error args) as [name|]; [|discriminate].
  destruct (truthy name) eqn:Ht; [|discriminate].
  destruct (parseArgs args) as [[s g] i].
  destruct (rejected s) eqn:Hr; [discriminate|].
  intros [= <- <- <-]. simpl. repeat split; assumption.
Qed.

(** X1.  The last [--git=] or [-g=] argument decides the git step: it is on
    exactly when the value, in lower case, is [true]. *)
Theorem last_git_flag_decides
  (pre post : list string) (flag v : string) (st st0 : state W)
  (cfg : config) (ev0 : list event) :
  flag = "--git=" \/ flag = "-g=" ->
  contains "=" v = false ->
  forallb (fun a => negb (isGitFlag a)) post = true ->
  helpFlag (pre ++ (flag ++ v)%string :: post) = false ->
  nonInteractive (pre ++ (flag ++ v)%string :: post) = true ->
  collectInput (pre ++ (flag ++ v)%string :: post) st = (Ok cfg, st0, ev0) ->
  initGit cfg = (toLowerCase v =? "true").
Proof.
  intros Hf Hv Hp Hh Hn Hc.
  destruct (nonInteractive_config _ _ _ _ _ Hh Hn Hc) as (_ & _ & Hpa & _).
  apply (f_equal (fun x => snd (fst x))) in Hpa. simpl in Hpa.
  rewrite <- Hpa. unfold parseArgs. rewrite fold_left_app. simpl.
  rewrite (fold_parseArg_keeps_git _ Hp).
  destruct (fold_left parseArg pre ("", true, true)) as [[s g] i].
  unfold parseArg.
  destruct Hf as [-> | ->].
  - change ("--git=" ++ v)%string with ("--git" ++ String "=" v)%string.
    rewrite (flagValue_plain "--git" v eq_refl Hv). reflexivity.
  - change ("-g=" ++ v)%string with ("-g" ++ String "=" v)%string.
    rewrite (flagValue_plain "-g" v eq_refl Hv). reflexivity.
Qed.

(** X2.  The last [--install=] or [-i=] argument decides the install step in
    the same way. *)
Theorem last_install_flag_decides
  (pre post : list string) (flag v : string) (st st0 : state W)
  (cfg : config) (ev0 : list event) :
  flag = "--install=" \/ flag = "-i=" ->
  contains "=" v = false ->
  forallb (fun a => negb (isInstallFlag a)) post = true ->
  helpFlag (pre ++ (flag ++ v)%string :: post) = false ->
  nonInteractive (pre ++ (flag ++ v)%string :: post) = true ->
  collectInput (pre ++ (flag ++ v)%string :: post) st = (Ok cfg, st0, ev0) ->
  installDeps cfg = (toLowerCase v =? "true").
Proof.
  intros Hf Hv Hp Hh Hn Hc.
  destruct (nonInteractive_config _ _ _ _ _ Hh Hn Hc) as (_ & _ & Hpa & _).
  apply (f_equal snd) in Hpa. simpl in Hpa.
  rewrite <- Hpa. unfold parseArgs. rewrite fold_left_app. simpl.
  rewrite (fold_parseArg_keeps_install _ Hp).
  destruct (fold_left parseArg pre ("", true, true)) as [[s g] i].
  unfold parseArg.
  destruct Hf as [-> | ->].
  - change ("--install=" ++ v)%string with ("--install" ++ String "=" v)%string.
    rewrite (flagValue_plain "--install" v eq_refl Hv). reflexivity.
  - change ("-i=" ++ v)%string with ("-i" ++ String "=" v)%string.
    rewrite (flagValue_plain "-i" v eq_refl Hv). reflexivity.
Qed.

(** X3.  Without a [--store=], [--git=] or [--install=] argument (or their
    short forms), non-interactive mode runs with no store URL and with both
    optional steps on. *)
Theorem no_flag_defaults
  (args : list string) (st st0 : state W) (cfg : config) (ev0 : list event) :
  forallb (fun a => negb (isFlag a)) args = true ->
  helpFlag args = false ->
  nonInteractive args = true ->
  collectInput args st = (Ok cfg, st0, ev0) ->
  storeUrl cfg = "" /\ initGit cfg = true /\ installDeps cfg = true.
Proof.
  intros Hf Hh Hn Hc.
  destruct (nonInteractive_config _ _ _ _ _ Hh Hn Hc) as (_ & _ & Hpa & _).
  unfold parseArgs in Hpa. rewrite (fold_parseArg_no_flag _ Hf) in Hpa.
  injection Hpa as <- <- <-. repeat split.
Qed.

Lemma parseArgs_store_cut (pre post : list string) (flag a b : string) :
  flag = "--store=" \/ flag = "-s=" ->
  contains "=" a = false ->
  forallb (fun x => negb (isStoreFlag x)) post = true ->
  fst (fst (parseArgs (pre ++ (flag ++ a ++ String "=" b)%string :: post))) = a.
Proof.
  intros Hf Ha Hp. unfold parseArgs. rewrite fold_left_app. simpl.
  rewrite (fold_parseArg_keeps_store _ Hp).
  destruct (fold_left parseArg pre ("", true, true)) as [[s g] i].
  unfold parseArg.
  destruct Hf as [-> | ->].
  - change ("--store=" ++ a ++ String "=" b)%string
      with ("--store" ++ String "=" (a ++ String "=" b))%string.
    rewrite (flagValue_cut "--store" a b eq_refl Ha). reflexivity.
  - change ("-s=" ++ a ++ String "=" b)%string
      with ("-s" ++ String "=" (a ++ String "=" b))%string.
    rewrite (flagValue_cut "-s" a b eq_refl Ha). reflexivity.
Qed.

(** X4.  A store value is read up to its second ["="] only.  When the last
    store argument is [--store=A=B] (or [-s=A=B]) with no ["="] in [A], the
    check of the suffix is made on [A], whatever [B] is: with [A] empty or
    ending in [.myshopify.com] the run is accepted and the store URL handed
    on is [A]; with any other [A] the error is printed and the script
    leaves with exit code 1, also when [B] ends in the suffix. *)
Theorem store_value_cut_at_second_separator
  (pre post : list string) (flag a b name : string) (st : state W) :
  flag = "--store=" \/ flag = "-s=" ->
  contains "=" a = false ->
  forallb (fun x => negb (isStoreFlag x)) post = true ->
  helpFlag (pre ++ (flag ++ a ++ String "=" b)%string :: post) = false ->
  nonInteractive (pre ++ (flag ++ a ++ String "=" b)%string :: post) = true ->
  hd_error (pre ++ (flag ++ a ++ String "=" b)%string :: post) = Some name ->
  name <> "" ->
  (a = "" \/ endsWith a ".myshopify.com" = true ->
   exists git install,
     collectInput (pre ++ (flag ++ a ++ String "=" b)%string :: post) st
     = (Ok {| themeName := name; storeUrl := a;
              initGit := git; installDeps := install |}, st, []))
  /\ (a <> "" -> endsWith a ".myshopify.com" = false ->
      collectInput (pre ++ (flag ++ a ++ String "=" b)%string :: post) st
      = (Exit 1, st, [ConsoleError storeUrlInvalid])).
Proof.
  intros Hf Ha Hp Hh Hn Hd Hne.
  pose proof (parseArgs_store_cut pre post flag a b Hf Ha Hp) as Hs.
  unfold collectInput, nonInteractiveInput. rewrite Hh, Hn, Hd.
  assert (Ht : truthy name = true).
  { unfold truthy. destruct (String.eqb_spec name ""); [contradiction|].
    reflexivity. }
  rewrite Ht.
  destruct (parseArgs (pre ++ (flag ++ a ++ String "=" b)%string :: post))
    as [[s g] i].
  simpl in Hs. subst s. split.
  - intros Hok. apply accepted_iff in Hok. rewrite Hok.
    exists g, i. reflexivity.
  - intros Hna He. rewrite (rejected_true a Hna He). reflexivity.
Qed.

End Collected.

(** ** What the input collector hands on *)

Section Invariants.
Context {W : Type} (node : Node W).

Lemma accepted_url (url : string) :
  rejected url = false ->
  endsWith (if truthy url then url else defaultStoreUrl) ".myshopify.com"
  = true.
Proof.
  intros H. destruct (truthy url) eqn:T; [|reflexivity].
  apply accepted_iff in H as [-> | H]; [discriminate T | exact H].
Qed.

(** A store URL that the prompt returns ends with the suffix. *)
Lemma storeUrlAnswers_Ok (answers rest : list string) (url : string)
  (ev : list event) :
  storeUrlAnswers answers = (Ok url, rest, ev) ->
  endsWith url ".myshopify.com" = true.
Proof.
  revert rest ev. induction answers as [|a answers IH]; simpl; intros rest ev.
  - discriminate.
  - destruct (rejected (trim a)) eqn:R.
    + destruct (storeUrlAnswers answers) as [[r rest'] ev'].
      intros [= -> <- <-]. eapply IH. reflexivity.
    + intros [= <- <- <-]. now apply accepted_url.
Qed.

Lemma trimStart_head (s : string) :
  trimStart s = "" \/
  exists c r, trimStart s = String c r /\ isSpace c = false.
Proof.
  induction s as [|c s IH]; simpl; [now left|].
  destruct (isSpace c) eqn:E; [exact IH|]. right. now exists c, s.
Qed.

(** What [trim] leaves is empty or starts with a character that is no
    white space. *)
Lemma trim_not_blank (s : string) : trim s <> "" -> blank (trim s) = false.
Proof.
  unfold trim. destruct (trimStart_head s) as [-> | (c & r & -> & Hc)].
  - intros H. now contradiction H.
  - intros _. simpl. destruct (trimEnd r); rewrite ?Hc; simpl;
      rewrite Hc; reflexivity.
Qed.

(** What interactive mode hands on, when it hands anything on. *)
Lemma promptUser_config (st st0 : state W) (cfg : config) (ev0 : list event) :
  promptUser st = (Ok cfg, st0, ev0) ->
  themeName cfg <> ""
  /\ endsWith (storeUrl cfg) ".myshopify.com" = true
  /\ sys st0 = sys st.
Proof.
  unfold promptUser, promptThemeName, promptGitInit, promptInstallDeps,
    promptStoreUrl, bind, emit, question, ret.
  destruct st as [w inp]. simpl.
  destruct inp as [|t inp]; simpl; [discriminate|].
  destruct (storeUrlAnswers inp) as [[[u|c|e|] rest1] ev1] eqn:E; simpl;
    try discriminate.
  destruct rest1 as [|g [|i rest2]]; simpl; try discriminate.
  intros [= <- <- _]. simpl. repeat split.
  - destruct (truthy (trim t)) eqn:T; [|discriminate].
    intros H. rewrite H in T. discriminate T.
  - eapply storeUrlAnswers_Ok. exact E.
Qed.

(** X5.  A store URL that reaches the pipeline is empty or ends with
    [.myshopify.com], in both modes; from the prompts it is never empty. *)
Theorem collected_store_url_is_valid
  (args : list string) (st st0 : state W) (cfg : config) (ev0 : list event) :
  collectInput args st = (Ok cfg, st0, ev0) ->
  (storeUrl cfg = "" \/ endsWith (storeUrl cfg) ".myshopify.com" = true)
  /\ (nonInteractive args = false ->
      endsWith (storeUrl cfg) ".myshopify.com" = true).
Proof.
  intros Hc. destruct (helpFlag args) eqn:Hh.
  - unfold collectInput in Hc. rewrite Hh in Hc. discriminate Hc.
  - destruct (nonInteractive args) eqn:Hn.
    + destruct (nonInteractive_config _ _ _ _ _ Hh Hn Hc)
        as (_ & _ & _ & Hr & _).
      split; [|discriminate]. now apply accepted_iff.
    + unfold collectInput in Hc. rewrite Hh, Hn in Hc.
      destruct (promptUser_config _ _ _ _ Hc) as (_ & Hs & _).
      split; [now right | intros _; exact Hs].
Qed.

Lemma promptUser_themeName_not_blank (st st0 : state W) (cfg : config)
  (ev0 : list event) :
  promptUser st = (Ok cfg, st0, ev0) -> blank (themeName cfg) = false.
Proof.
  intros H. destruct (stdin st) as [|t rest] eqn:Hs.
  - unfold promptUser, promptThemeName, bind, emit, question in H.
    simpl in H. rewrite Hs in H. discriminate H.
  - destruct (promptUser_themeName st st0 cfg ev0 t rest Hs H) as [-> _].
    destruct (truthy (trim t)) eqn:T; [|reflexivity].
    apply trim_not_blank. intros E. rewrite E in T. discriminate T.
Qed.

(** X6.  A theme name that reaches the pipeline is never empty.  From the
    prompt it is not blank either; from the command line it is the first
    argument as it is, so it may be. *)
Theorem collected_theme_name_is_not_empty
  (args : list string) (st st0 : state W) (cfg : config) (ev0 : list event) :
  collectInput args st = (Ok cfg, st0, ev0) ->
  themeName cfg <> ""
  /\ (nonInteractive args = false -> blank (themeName cfg) = false)
  /\ (nonInteractive args = true -> hd_error args = Some (themeName cfg)).
Proof.
  intros Hc. destruct (helpFlag args) eqn:Hh.
  - unfold collectInput in Hc. rewrite Hh in Hc. discriminate Hc.
  - destruct (nonInteractive args) eqn:Hn.
    + destruct (nonInteractive_config _ _ _ _ _ Hh Hn Hc) as (Hd & Ht & _).
      split; [|split; [discriminate | intros _; exact Hd]].
      intros E. rewrite E in Ht. discriminate Ht.
    + unfold collectInput in Hc. rewrite Hh, Hn in Hc.
      destruct (promptUser_config _ _ _ _ Hc) as (Ht & _).
      split; [exact Ht|]. split; [|discriminate]. intros _.
      exact (promptUser_themeName_not_blank _ _ _ _ Hc).
Qed.

(** X7.  Collecting the input leaves the machine as it is, whatever the
    outcome; with [--help], [-h] or [--non-interactive] it reads no line of
    standard input and asks nothing. *)
Theorem input_collection_leaves_machine_alone
  (args : list string) (st : state W) :
  sys (snd (fst (collectInput args st))) = sys st
  /\ Forall quiet (snd (collectInput args st))
  /\ (helpFlag args = true \/ nonInteractive args = true ->
      snd (fst (collectInput args st)) = st
      /\ forall q, ~ In (Question q) (snd (collectInput args st))).
Proof.
  split; [|split].
  - unfold collectInput, showHelp, nonInteractiveInput.
    destruct (helpFlag args); [reflexivity|].
    destruct (nonInteractive args).
    + destruct (hd_error args) as [name|]; [|reflexivity].
      destruct (truthy name); [|reflexivity].
      destruct (parseArgs args) as [[s g] i].
      destruct (rejected s); reflexivity.
    + unfold promptUser, promptThemeName, promptGitInit, promptInstallDeps,
        promptStoreUrl, bind, emit, question, ret.
      destruct st as [w inp]. simpl.
      destruct inp as [|t inp]; simpl; [reflexivity|].
      destruct (storeUrlAnswers inp) as [[[u|c|e|] rest1] ev1]; simpl;
        try reflexivity.
      destruct rest1 as [|g [|i rest2]]; reflexivity.
  - apply collectInput_quiet.
  - intros H. unfold collectInput, showHelp, nonInteractiveInput.
    destruct (helpFlag args).
    + simpl. split; [reflexivity|]. intros q [E|[]]. discriminate E.
    + destruct H as [H|H]; [discriminate H|]. rewrite H.
      destruct (hd_error args) as [name|].
      * destruct (truthy name).
        -- destruct (parseArgs args) as [[s g] i].
           destruct (rejected s); simpl; (split; [reflexivity|]).
           ++ intros q [E|[]]. discriminate E.
           ++ intros q [].
        -- simpl. split; [reflexivity|]. intros q [E|[]]. discriminate E.
      * simpl. split; [reflexivity|]. intros q [E|[]]. discriminate E.
Qed.

End Invariants.

(** ** How a run ends *)

Section ExitRules.
Context {W : Type}.
Variable Q : nat -> Prop.

Lemma exitCodes_ret {A} (a : A) : exitCodes Q (ret (W := W) a).
Proof. intros st c. discriminate. Qed.

Lemma exitCodes_exit {A} (c : nat) : Q c -> exitCodes Q (exit (W := W) (A := A) c).
Proof. intros H st c' [= <-]. exact H. Qed.

Lemma exitCodes_throw {A} (m : string) :
  exitCodes Q (throw (W := W) (A := A) m).
Proof. intros st c. discriminate. Qed.

Lemma exitCodes_lift {A} (r : res A) : exitCodes Q (lift (W := W) r).
Proof. destruct r; [apply exitCodes_throw | apply exitCodes_ret]. Qed.

Lemma exitCodes_emit (e : event) : exitCodes Q (emit (W := W) e).
Proof. intros st c. discriminate. Qed.

Lemma exitCodes_observe {A} (e : event) (f : W -> A) :
  exitCodes Q (observe e f).
Proof. intros st c. discriminate. Qed.

Lemma exitCodes_attempt {A} (e : event) (f : W -> res A) :
  exitCodes Q (attempt e f).
Proof.
  intros st c. unfold attempt. destruct (f (sys st)); discriminate.
Qed.

Lemma exitCodes_perform (e : event) (f : W -> W * res unit) :
  exitCodes Q (perform e f).
Proof.
  intros st c. unfold perform. destruct (f (sys st)) as [w [m|u]];
    discriminate.
Qed.

Lemma exitCodes_question (q : string) : exitCodes Q (question (W := W) q).
Proof. intros st c. unfold question. destruct (stdin st); discriminate. Qed.

Lemma exitCodes_bind {A B} (m : M W A) (f : A -> M W B) :
  exitCodes Q m -> (forall a, exitCodes Q (f a)) -> exitCodes Q (bind m f).
Proof.
  intros Hm Hf st c. unfold bind. specialize (Hm st).
  destruct (m st) as [[[a|c'|e|] st1] ev1]; simpl in *; try discriminate.
  - specialize (Hf a st1). destruct (f a st1) as [[r st2] ev2]. exact (Hf c).
  - intros [= <-]. now apply Hm.
Qed.

Lemma exitCodes_tryCatch {A} (m : M W A) (h : string -> M W A) :
  exitCodes Q m -> (forall e, exitCodes Q (h e)) -> exitCodes Q (tryCatch m h).
Proof.
  intros Hm Hh st c. unfold tryCatch. specialize (Hm st).
  destruct (m st) as [[[a|c'|e|] st1] ev1]; simpl in *; try discriminate.
  - exact (Hm c).
  - specialize (Hh e st1). destruct (h e st1) as [[r st2] ev2]. exact (Hh c).
Qed.

Lemma storeUrlAnswers_no_exit (answers : list string) (c : nat) :
  fst (fst (storeUrlAnswers answers)) <> Exit c.
Proof.
  induction answers as [|a rest IH]; simpl; [discriminate|].
  destruct (rejected (trim a)); [|discriminate].
  destruct (storeUrlAnswers rest) as [[r rest'] ev]. exact IH.
Qed.

Lemma exitCodes_promptStoreUrl : exitCodes Q (promptStoreUrl (W := W)).
Proof.
  intros st c. unfold promptStoreUrl.
  pose proof (storeUrlAnswers_no_exit (stdin st) c) as H.
  destruct (storeUrlAnswers (stdin st)) as [[r rest] ev]. simpl in *.
  intros E. contradiction.
Qed.

End ExitRules.

(** One step of a proof about the exit codes of a computation. *)
Ltac exit_step :=
  first
    [ apply exitCodes_bind; [|intros ?]
    | apply exitCodes_tryCatch; [|intros ?]
    | apply exitCodes_ret
    | apply exitCodes_throw
    | apply exitCodes_lift
    | apply exitCodes_emit
    | apply exitCodes_observe
    | apply exitCodes_attempt
    | apply exitCodes_perform
    | apply exitCodes_question
    | apply exitCodes_promptStoreUrl
    | match goal with
      | |- exitCodes _ (if ?b then _ else _) => destruct b
      | |- exitCodes _ (match ?x with _ => _ end) => destruct x
      end ].

Section Endings.
Context {W : Type} (node : Node W).

Lemma bind_inv_Ok {A B} (m : M W A) (f : A -> M W B) st b st' ev :
  bind m f st = (Ok b, st', ev) ->
  exists a st1 ev1 ev2,
    m st = (Ok a, st1, ev1) /\ f a st1 = (Ok b, st', ev2) /\ ev = ev1 ++ ev2.
Proof.
  unfold bind. destruct (m st) as [[[a|c|e|] st1] ev1]; try discriminate.
  destruct (f a st1) as [[r st2] ev2] eqn:E. intros [= -> <- <-].
  now exists a, st1, ev1, ev2.
Qed.

Lemma bind_inv_Exit {A B} (m : M W A) (f : A -> M W B) st c st' ev :
  bind m f st = (Exit c, st', ev) ->
  m st = (Exit c, st', ev) \/
  exists a st1 ev1 ev2,
    m st = (Ok a, st1, ev1) /\ f a st1 = (Exit c, st', ev2) /\ ev = ev1 ++ ev2.
Proof.
  unfold bind. destruct (m st) as [[[a|c'|e|] st1] ev1]; try discriminate.
  - destruct (f a st1) as [[r st2] ev2] eqn:E. intros [= -> <- <-].
    right. now exists a, st1, ev1, ev2.
  - intros [= -> -> ->]. now left.
Qed.

Lemma promptUser_no_exit : exitCodes (fun _ => False) (promptUser (W := W)).
Proof.
  unfold promptUser, promptThemeName, promptGitInit, promptInstallDeps.
  repeat exit_step.
Qed.

Lemma createDirectory_no_exit (cfg : config) :
  exitCodes (fun _ => False) (createDirectory node cfg).
Proof. unfold createDirectory. repeat exit_step. Qed.

Lemma rewrite_and_finish_no_exit (cfg : config) :
  exitCodes (fun _ => False) (updateProjectFiles node cfg ;; finish node cfg).
Proof.
  unfold updateProjectFiles, updateReadme, updatePackage, finish,
    initGitRepository, installDependencies, displayCompletion, runCommand.
  repeat exit_step.
Qed.

(** The input collector leaves through a code only after the usage (0) or
    one of its two errors (1). *)
Lemma collectInput_Exit (args : list string) (st st' : state W)
  (c : nat) (ev : list event) :
  collectInput args st = (Exit c, st', ev) ->
  (c = 0 /\ ev = [ConsoleLog usage]) \/
  (c = 1 /\ (ev = [ConsoleError themeNameRequired] \/
             ev = [ConsoleError storeUrlInvalid])).
Proof.
  unfold collectInput, showHelp, nonInteractiveInput.
  destruct (helpFlag args).
  - intros [= <- _ <-]. now left.
  - destruct (nonInteractive args).
    + destruct (hd_error args) as [name|].
      * destruct (truthy name).
        -- destruct (parseArgs args) as [[s g] i].
           destruct (rejected s); [|discriminate].
           intros [= <- _ <-]. right. split; [reflexivity | now right].
        -- intros [= <- _ <-]. right. split; [reflexivity | now left].
      * intros [= <- _ <-]. right. split; [reflexivity | now left].
    + intros H. exfalso.
      apply (promptUser_no_exit st c). now rewrite H.
Qed.

Lemma cloneRepository_Exit (cfg : config) (st st' : state W)
  (c : nat) (ev : list event) :
  cloneRepository node cfg st = (Exit c, st', ev) ->
  c = 1 /\ exists ev', ev = ev' ++ [SpinnerFail "Failed to clone repository"].
Proof.
  unfold cloneRepository, runCommand, bind, tryCatch, perform, emit, exit, ret.
  simpl.
  destruct (execSync node (gitCheckoutCommand (themeName cfg)) (sys st))
    as [w [m|u]]; simpl; [|discriminate].
  intros [= <- _ <-]. split; [reflexivity|].
  eexists [_; _; _; _]. reflexivity.
Qed.

Lemma scaffold_Exit (cfg : config) (st st' : state W)
  (c : nat) (ev : list event) :
  scaffold node cfg st = (Exit c, st', ev) ->
  c = 1 /\ exists ev', ev = ev' ++ [SpinnerFail "Failed to clone repository"].
Proof.
  unfold scaffold. intros H.
  apply bind_inv_Exit in H as [H|(a & st1 & ev1 & ev2 & _ & H & ->)].
  - exfalso. apply (createDirectory_no_exit cfg st c). now rewrite H.
  - apply bind_inv_Exit in H as [H|(a' & st2 & ev3 & ev4 & _ & H & ->)].
    + apply cloneRepository_Exit in H as [-> [ev' ->]].
      split; [reflexivity|]. exists (ev1 ++ ev'). now rewrite app_assoc.
    + exfalso. apply (rewrite_and_finish_no_exit cfg st2 c). now rewrite H.
Qed.

Lemma displayCompletion_run (cfg : config) (st : state W) :
  exists ev',
    displayCompletion node cfg st
    = (Ok tt, st, ev' ++ [ConsoleLog ("Happy coding! 🚀" ++ nl)])
    /\ (In installReminder (ev' ++ [ConsoleLog ("Happy coding! 🚀" ++ nl)])
        <-> installDeps cfg = false).
Proof.
  unfold displayCompletion, bind, emit, ret. simpl.
  destruct (installDeps cfg); simpl.
  - eexists [_; _; _; _; _; _; _]. split; [reflexivity|].
    split; [|discriminate]. unfold installReminder. simpl.
    intros H. repeat (destruct H as [H|H]; [discriminate H|]). destruct H.
  - eexists [_; _; _; _; _; _; _; _]. split; [reflexivity|].
    split; [reflexivity|]. intros _. unfold installReminder. simpl. tauto.
Qed.

Lemma scaffold_Ok (cfg : config) (st st' : state W) (ev : list event) :
  scaffold node cfg st = (Ok tt, st', ev) ->
  exists ev', ev = ev' ++ [ConsoleLog ("Happy coding! 🚀" ++ nl)].
Proof.
  unfold scaffold, finish. intros H.
  apply bind_inv_Ok in H as (? & st1 & ev1 & ? & _ & H & ->).
  apply bind_inv_Ok in H as (? & st2 & ev2 & ? & _ & H & ->).
  apply bind_inv_Ok in H as (? & st3 & ev3 & ? & _ & H & ->).
  apply bind_inv_Ok in H as (? & st4 & ev4 & ? & _ & H & ->).
  apply bind_inv_Ok in H as (? & st5 & ev5 & ? & _ & H & ->).
  destruct (displayCompletion_run cfg st5) as (ev' & E & _).
  rewrite E in H. injection H as _ <-.
  exists (ev1 ++ ev2 ++ ev3 ++ ev4 ++ ev5 ++ ev').
  now rewrite <- !app_assoc.
Qed.

(** X8.  A run never falls off its end: it leaves through exit code 0 or 1 (or
    is cut short by an exception or by the end of the input).  Code 0
    comes right after the usage or after the last line of the completion
    message; code 1 comes right after one of three reports: the missing
    theme name, the invalid store URL, the failed clone. *)
Theorem exit_codes_and_their_reports (args : list string) (st : state W) :
  match main node args st with
  | (Ok _, _, _) => False
  | (Exit c, _, ev) =>
      (c = 0 /\ exists ev',
                  ev = ev' ++ [ConsoleLog usage] \/
                  ev = ev' ++ [ConsoleLog ("Happy coding! 🚀" ++ nl)])
      \/ (c = 1 /\ exists ev' e, ev = ev' ++ [e] /\ In e fatalReports)
  | _ => True
  end.
Proof.
  unfold main, bind.
  destruct (collectInput args st) as [[[cfg|c|m|] st0] ev0] eqn:Hc; auto.
  - destruct (scaffold node cfg st0) as [[[[]|c|m|] st1] ev1] eqn:Hs;
      simpl; auto.
    + left. split; [reflexivity|].
      destruct (scaffold_Ok _ _ _ _ Hs) as [ev' ->].
      exists (ev0 ++ ev'). right. now rewrite app_nil_r, app_assoc.
    + right. destruct (scaffold_Exit _ _ _ _ _ Hs) as [-> [ev' ->]].
      split; [reflexivity|].
      exists (ev0 ++ ev'), (SpinnerFail "Failed to clone repository").
      split; [now rewrite app_assoc | simpl; auto].
  - destruct (collectInput_Exit _ _ _ _ _ Hc) as [[-> ->]|[-> [-> | ->]]].
    + left. split; [reflexivity|]. exists []. now left.
    + right. split; [reflexivity|]. exists [], (ConsoleError themeNameRequired).
      split; [reflexivity | simpl; auto].
    + right. split; [reflexivity|]. exists [], (ConsoleError storeUrlInvalid).
      split; [reflexivity | simpl; auto].
Qed.

Lemma updateProjectFiles_Ok (cfg : config) (st : state W) :
  exists st1 ev1, updateProjectFiles node cfg st = (Ok tt, st1, ev1).
Proof.
  pose proof (updateProjectFiles_caught node cfg st) as H.
  destruct ((updateReadme node cfg ;; updatePackage node cfg) st)
    as [[[u|c|m|] st1] ev]; try contradiction; eauto.
Qed.

(** X9.  Once the clone has succeeded, nothing that fails in the rewrite, in
    [git init] or in the install changes the exit code: the rewrite always
    ends normally, and the run leaves with exit code 0 unless the [.git]
    directory is there, the git flag is set and the command that removes
    the directory throws.  That exception, and no other, cuts the run
    short. *)
Theorem later_failures_are_not_fatal
  (args : list string) (cfg : config) (st st0 st1 st2 : state W)
  (ev0 ev1 ev2 : list event) :
  collectInput args st = (Ok cfg, st0, ev0) ->
  createDirectory node cfg st0 = (Ok tt, st1, ev1) ->
  cloneRepository node cfg st1 = (Ok tt, st2, ev2) ->
  exists st3 ev3,
    updateProjectFiles node cfg st2 = (Ok tt, st3, ev3)
    /\ (initGit cfg = false -> fst (fst (main node args st)) = Exit 0)
    /\ ((fst (fst (main node args st)) = Exit 0
         /\ (initGit cfg = false
             \/ existsSync node (gitDir node cfg) (sys st3) = false
             \/ exists w,
                  execSync node
                    (removeCommand (platform node) (gitDir node cfg))
                    (sys st3) = (w, Returned tt)))
        \/ (exists w m,
              initGit cfg = true
              /\ existsSync node (gitDir node cfg) (sys st3) = true
              /\ execSync node
                   (removeCommand (platform node) (gitDir node cfg))
                   (sys st3) = (w, Thrown m)
              /\ fst (fst (main node args st)) = Uncaught m)).
Proof.
  intros Hc Hd Hl.
  destruct (updateProjectFiles_Ok cfg st2) as (st3 & ev3 & Hu).
  exists st3, ev3. split; [exact Hu|].
  unfold main, scaffold, bind. rewrite Hc, Hd, Hl, Hu.
  destruct (finish node cfg st3) as [[r st4] ev4] eqn:F.
  destruct (finish_outcome node cfg st3 _ _ _ F)
    as [_ [(w & m & Hg & Hx & He & ->)|(-> & Hwhy & _ & _)]]; simpl.
  - split; [intros H; rewrite H in Hg; discriminate Hg|].
    right. exists w, m. repeat split; assumption.
  - split; [reflexivity|]. left. split; [reflexivity | exact Hwhy].
Qed.

(** X10.  The removal of [.git] is run outside [runCommand]: when it throws, the
    run is over.  No [git init], no install and no completion message
    follow, whatever the install flag says. *)
Theorem git_removal_failure_ends_the_run
  (cfg : config) (st : state W) (w : W) (message : string) :
  initGit cfg = true ->
  existsSync node (gitDir node cfg) (sys st) = true ->
  execSync node (removeCommand (platform node) (gitDir node cfg)) (sys st)
  = (w, Thrown message) ->
  finish node cfg st
  = (Uncaught message, {| sys := w; stdin := stdin st |},
     [SpinnerStart "Initializing git repository...";
      ExistsSync (gitDir node cfg);
      ExecSync (removeCommand (platform node) (gitDir node cfg))]).
Proof.
  intros Hg Hx He.
  unfold finish, initGitRepository, bind, observe, perform, emit.
  rewrite Hg. simpl. rewrite Hx. simpl. rewrite He. reflexivity.
Qed.

Lemma commands_noCommand (ev : list event) :
  Forall noCommand ev -> commands ev = [].
Proof.
  induction 1 as [|e ev He _ IH]; simpl; [reflexivity|].
  destruct e; simpl in *; auto; contradiction.
Qed.

Lemma updateProjectFiles_noCommand (cfg : config) :
  emits noCommand (updateProjectFiles node cfg).
Proof.
  unfold updateProjectFiles, updateReadme, updatePackage. emits_auto.
Qed.

Lemma cloneRepository_Ok (cfg : config) (st st' : state W) (ev : list event) :
  cloneRepository node cfg st = (Ok tt, st', ev) ->
  commands ev = [gitCheckoutCommand (themeName cfg)].
Proof.
  unfold cloneRepository, runCommand, bind, tryCatch, perform, emit, exit, ret.
  simpl.
  destruct (execSync node (gitCheckoutCommand (themeName cfg)) (sys st))
    as [w [m|u]]; simpl; [discriminate|].
  intros [= _ <-]. reflexivity.
Qed.

Lemma finish_commands (cfg : config) (st st' : state W) (ev : list event) :
  finish node cfg st = (Ok tt, st', ev) ->
  commands ev
  = (if initGit cfg
     then (if existsSync node (gitDir node cfg) (sys st)
           then [removeCommand (platform node) (gitDir node cfg)] else [])
          ++ [gitInitCommand (themeName cfg)]
     else [])
    ++ (if installDeps cfg then [installCommand (themeName cfg)] else []).
Proof.
  unfold finish, initGitRepository, installDependencies, displayCompletion,
    runCommand, bind, tryCatch, observe, perform, emit, ret.
  destruct st as [w0 inp].
  destruct (initGit cfg), (installDeps cfg); simpl;
    try destruct (existsSync node (gitDir node cfg) w0);
    run_calls; intros [= _ <-]; reflexivity.
Qed.

(** X11.  A run of the pipeline that reaches its end has handed to the shell the
    clone, then (with the git flag) the removal of [.git] exactly when
    [existsSync] found the directory after the rewrite and [git init], then
    (with the install flag) the install: each once, in this order, whether
    or not [git init] and the install succeeded. *)
Theorem commands_of_a_completed_run
  (cfg : config) (st st' : state W) (ev : list event) :
  scaffold node cfg st = (Ok tt, st', ev) ->
  exists st1 ev1 st2 ev2 st3 ev3,
    createDirectory node cfg st = (Ok tt, st1, ev1)
    /\ cloneRepository node cfg st1 = (Ok tt, st2, ev2)
    /\ updateProjectFiles node cfg st2 = (Ok tt, st3, ev3)
    /\ commands ev
       = completedCommands (platform node) (gitDir node cfg) cfg
           (existsSync node (gitDir node cfg) (sys st3)).
Proof.
  unfold scaffold. intros H.
  apply bind_inv_Ok in H as ([] & st1 & ev1 & ? & Hd & H & ->).
  apply bind_inv_Ok in H as ([] & st2 & ev2 & ? & Hl & H & ->).
  apply bind_inv_Ok in H as ([] & st3 & ev3 & ev4 & Hu & H & ->).
  exists st1, ev1, st2, ev2, st3, ev3.
  split; [exact Hd|]. split; [exact Hl|]. split; [exact Hu|].
  rewrite !commands_app, (finish_commands _ _ _ _ H).
  rewrite (cloneRepository_Ok _ _ _ _ Hl).
  pose proof (updateProjectFiles_noCommand cfg st2) as Hn.
  rewrite Hu in Hn. simpl in Hn. rewrite (commands_noCommand _ Hn).
  destruct (createDirectory_events node _ _ _ _ _ Hd) as [-> | ->];
    reflexivity.
Qed.

(** X12.  The completion message of a run that reaches its end holds the
    [npm install] reminder exactly when the install flag is off; a failed
    install is not reminded of. *)
Theorem install_reminder_follows_the_flag
  (cfg : config) (st st' : state W) (ev : list event) :
  scaffold node cfg st = (Ok tt, st', ev) ->
  (In installReminder ev <-> installDeps cfg = false).
Proof.
  unfold scaffold, finish. intros H.
  apply bind_inv_Ok in H as (? & st1 & ev1 & ? & H1 & H & ->).
  apply bind_inv_Ok in H as (? & st2 & ev2 & ? & H2 & H & ->).
  apply bind_inv_Ok in H as (? & st3 & ev3 & ? & H3 & H & ->).
  apply bind_inv_Ok in H as (? & st4 & ev4 & ? & H4 & H & ->).
  apply bind_inv_Ok in H as (? & st5 & ev5 & ? & H5 & H & ->).
  destruct (displayCompletion_run cfg st5) as (ev' & E & R).
  rewrite E in H. injection H as _ <-.
  assert (N : forall (m : M W unit) s,
             emits (fun e => e <> installReminder) m ->
             ~ In installReminder (snd (m s))).
  { intros m s Hm Hin. specialize (Hm s). rewrite Forall_forall in Hm.
    exact (Hm _ Hin eq_refl). }
  assert (P1 : ~ In installReminder ev1).
  { pose proof (N (createDirectory node cfg) st) as X. rewrite H1 in X.
    apply X. unfold createDirectory. emits_auto; discriminate. }
  assert (P2 : ~ In installReminder ev2).
  { pose proof (N (cloneRepository node cfg) st1) as X. rewrite H2 in X.
    apply X. unfold cloneRepository, runCommand.
    emits_auto; unfold installReminder; intros Q; cbv in Q; discriminate Q. }
  assert (P3 : ~ In installReminder ev3).
  { pose proof (N (updateProjectFiles node cfg) st2) as X. rewrite H3 in X.
    apply X. unfold updateProjectFiles, updateReadme, updatePackage.
    emits_auto; discriminate. }
  assert (P4 : ~ In installReminder ev4).
  { pose proof (N (initGitRepository node cfg) st3) as X. rewrite H4 in X.
    apply X. unfold initGitRepository, runCommand.
    emits_auto; discriminate. }
  assert (P5 : ~ In installReminder ev5).
  { pose proof (N (installDependencies node cfg) st4) as X. rewrite H5 in X.
    apply X. unfold installDependencies, runCommand.
    emits_auto; discriminate. }
  rewrite !in_app_iff in *. tauto.
Qed.

(** X13.  When the directory cannot be made, the run is over before anything is
    cloned: no command is run. *)
Theorem mkdir_failure_ends_the_run
  (args : list string) (cfg : config) (st st0 : state W)
  (ev0 : list event) (w : W) (message : string) :
  collectInput args st = (Ok cfg, st0, ev0) ->
  existsSync node (themeName cfg) (sys st0) = false ->
  mkdirSync node (themeName cfg) (sys st0) = (w, Thrown message) ->
  main node args st
  = (Uncaught message, {| sys := w; stdin := stdin st0 |},
     ev0 ++ [ExistsSync (themeName cfg); MkdirSync (themeName cfg)])
  /\ commands (snd (main node args st)) = [].
Proof.
  intros Hc Hx Hm.
  assert (E : main node args st
              = (Uncaught message, {| sys := w; stdin := stdin st0 |},
                 ev0 ++ [ExistsSync (themeName cfg);
                         MkdirSync (themeName cfg)])).
  { unfold main, scaffold, createDirectory, bind, observe, perform.
    rewrite Hc. simpl. rewrite Hx, Hm. reflexivity. }
  split; [exact E|]. rewrite E. simpl. rewrite commands_app.
  pose proof (collectInput_quiet args st) as Hq. rewrite Hc in Hq.
  simpl in Hq. now rewrite (commands_quiet _ Hq).
Qed.

Lemma after_directory_noMkdir (cfg : config) :
  emits noMkdir
    (cloneRepository node cfg ;; updateProjectFiles node cfg ;;
     finish node cfg).
Proof.
  unfold finish, cloneRepository, updateProjectFiles, updateReadme,
    updatePackage, initGitRepository, installDependencies, displayCompletion,
    runCommand.
  emits_auto.
Qed.

(** X14.  A directory that is already there is used as it is: the run makes no
    directory and goes straight to the clone. *)
Theorem existing_directory_is_reused
  (args : list string) (cfg : config) (st st0 : state W) (ev0 : list event) :
  collectInput args st = (Ok cfg, st0, ev0) ->
  existsSync node (themeName cfg) (sys st0) = true ->
  (forall p, ~ In (MkdirSync p) (snd (main node args st)))
  /\ exists ev,
       snd (main node args st)
       = ev0 ++ ExistsSync (themeName cfg)
             :: ConsoleLog ("✨ Creating a new Shopify theme called "
                            ++ themeName cfg ++ "...")
             :: SpinnerStart "Cloning repository..."
             :: ExecSync (gitCheckoutCommand (themeName cfg)) :: ev.
Proof.
  intros Hc Hx.
  assert (D : createDirectory node cfg st0
              = (Ok tt, st0, [ExistsSync (themeName cfg)])).
  { unfold createDirectory, bind, observe. simpl. rewrite Hx. reflexivity. }
  assert (E : snd (main node args st)
              = ev0 ++ ExistsSync (themeName cfg)
                    :: snd ((cloneRepository node cfg ;;
                             updateProjectFiles node cfg ;;
                             finish node cfg) st0)).
  { rewrite main_events, Hc. f_equal. unfold scaffold.
    unfold bind at 1. rewrite D.
    destruct ((cloneRepository node cfg ;; updateProjectFiles node cfg ;;
               finish node cfg) st0) as [[r s1] e1]. reflexivity. }
  split.
  - intros p Hin. rewrite E in Hin.
    apply in_app_or in Hin as [Hin|[Hin|Hin]].
    + pose proof (collectInput_quiet args st) as Hq. rewrite Hc in Hq.
      simpl in Hq. rewrite Forall_forall in Hq. exact (Hq _ Hin).
    + discriminate Hin.
    + pose proof (after_directory_noMkdir cfg st0) as Hn.
      rewrite Forall_forall in Hn. exact (Hn _ Hin).
  - rewrite E.
    destruct (bind_events (cloneRepository node cfg)
                (fun _ => updateProjectFiles node cfg ;; finish node cfg) st0)
      as [ev2 ->].
    unfold cloneRepository, runCommand, bind, tryCatch, perform, emit, exit,
      ret.
    simpl.
    destruct (execSync node (gitCheckoutCommand (themeName cfg)) (sys st0))
      as [w [m|u]]; simpl; eexists; reflexivity.
Qed.

End Endings.

(** ** The first argument as the theme name *)

Section FirstArgument.
Context {W : Type} (node : Node W).

(** In non-interactive mode the check of line 41 reports a missing theme
    name for one first argument only: the empty string.  The argument list
    holds [--non-interactive], so [args[0]] is never [undefined]. *)
Lemma theme_name_required_only_when_empty (args : list string) (st : state W) :
  helpFlag args = false ->
  nonInteractive args = true ->
  (collectInput args st = (Exit 1, st, [ConsoleError themeNameRequired])
   <-> hd_error args = Some "").
Proof.
  intros Hh Hn. unfold collectInput, nonInteractiveInput. rewrite Hh, Hn.
  destruct args as [|name rest]; [discriminate Hn|].
  change (hd_error (name :: rest)) with (Some name). cbv iota beta.
  unfold truthy. destruct (String.eqb name "") eqn:E; simpl.
  - apply String.eqb_eq in E as ->. split; reflexivity.
  - apply String.eqb_neq in E.
    destruct (parseArgs (name :: rest)) as [[s g] i].
    split.
    + destruct (rejected s); intros H; exfalso; cbv in H; discriminate H.
    + intros [= ->]. now contradiction E.
Qed.



End FirstArgument.



(** ** The heading of the readme *)

Lemma restOfLine_line (line after : string) :
  contains "010" line = false ->
  contains "013" line = false ->
  after = "" \/
  (exists c r, after = String c r /\ Readme.isLineTerminator c = true) ->
  Readme.restOfLine (line ++ after) = (line, after).
Proof.
  intros Hn Hr Ha. induction line as [|c line IH]; simpl in *.
  - destruct Ha as [-> | (c & r & -> & Hc)]; [reflexivity|].
    simpl. now rewrite Hc.
  - apply orb_false_iff in Hn as [Hn1 Hn2].
    apply orb_false_iff in Hr as [Hr1 Hr2].
    unfold Readme.isLineTerminator. rewrite Hn1, Hr1. simpl.
    now rewrite (IH Hn2 Hr2).
Qed.

(** A replacement without [$] stands for itself. *)
Lemma substitution_plain (before matched after template : string) :
  contains "$" template = false ->
  Readme.substitution before matched after template = template.
Proof.
  induction template as [|c t IH]; simpl; intros H; [reflexivity|].
  apply orb_false_iff in H as [Hc Ht]. rewrite Hc. now rewrite (IH Ht).
Qed.

Lemma findHeading_none (content : string) :
  (forall p q, content <> (p ++ "# " ++ q)%string) ->
  Readme.findHeading content = None.
Proof.
  induction content as [|c content IH]; intros H; [reflexivity|].
  cbn [Readme.findHeading].
  destruct (startsWith (String c content) "# ") eqn:S.
  - apply startsWith_spec in S as [r S]. exfalso. exact (H "" r S).
  - rewrite IH; [reflexivity|].
    intros p q E. apply (H (String c p) q). simpl. now rewrite E.
Qed.

Lemma findHeading_first (before line after : string) :
  (forall p q, (before ++ "#")%string <> (p ++ "# " ++ q)%string) ->
  contains "010" line = false ->
  contains "013" line = false ->
  after = "" \/
  (exists c r, after = String c r /\ Readme.isLineTerminator c = true) ->
  Readme.findHeading (before ++ "# " ++ line ++ after)
  = Some (before, ("# " ++ line)%string, after).
Proof.
  intros Hb Hn Hr Ha.
  assert (T : exists tail, tail = (line ++ after)%string) by eauto.
  destruct T as [tail T]. rewrite <- T.
  induction before as [|c before IH].
  - cbn [append Readme.findHeading startsWith].
    rewrite !Ascii.eqb_refl. cbn [andb].
    rewrite T.
    change (String "#" (String " " (line ++ after)))
      with (("# " ++ line) ++ after)%string.
    rewrite restOfLine_line; [reflexivity | exact Hn | exact Hr | exact Ha].
  - cbn [append Readme.findHeading].
    change (String "#" (String " " tail)) with ("# " ++ tail)%string.
    destruct (startsWith (String c (before ++ "# " ++ tail)) "# ") eqn:S.
    + exfalso. cbn [startsWith] in S.
      apply andb_true_iff in S as [Sc S]. apply Ascii.eqb_eq in Sc as ->.
      destruct before as [|d before]; cbn [append startsWith] in S.
      * discriminate S.
      * apply andb_true_iff in S as [Sd _]. apply Ascii.eqb_eq in Sd as ->.
        exact (Hb "" (before ++ "#")%string eq_refl).
    + rewrite IH; [reflexivity|].
      intros p q E. apply (Hb (String c p) q). simpl. now rewrite E.
Qed.

(** X15.  A readme without a ["# "] is written back as it was read. *)
Theorem readme_without_heading_is_unchanged (content name : string) :
  (forall p q, content <> (p ++ "# " ++ q)%string) ->
  Readme.replaceHeading content name = content.
Proof.
  intros H. unfold Readme.replaceHeading.
  now rewrite (findHeading_none content H).
Qed.

(** X16.  For a theme name without [$]: the first ["# "] of the readme and the
    rest of its line become ["# "] and the theme name; what precedes it,
    the line ending and all later lines (later headings too) stay. *)
Theorem readme_first_heading_is_replaced (before line after name : string) :
  (forall p q, (before ++ "#")%string <> (p ++ "# " ++ q)%string) ->
  contains "010" line = false ->
  contains "013" line = false ->
  after = "" \/
  (exists c r, after = String c r /\ Readme.isLineTerminator c = true) ->
  contains "$" name = false ->
  Readme.replaceHeading (before ++ "# " ++ line ++ after) name
  = (before ++ "# " ++ name ++ after)%string.
Proof.
  intros Hb Hn Hr Ha Hd. unfold Readme.replaceHeading.
  rewrite (findHeading_first before line after Hb Hn Hr Ha).
  rewrite substitution_plain; [|exact Hd].
  change ("# " ++ name)%string with (String "#" (String " " name)).
  reflexivity.
Qed.

(** ** The other members of the manifest *)

(** X17.  The assignments change the manifest object at [name] and [config]
    only, and an object under [config] at [shopifyStore] only; without a
    store URL [config] is left as it is. *)
Theorem manifest_keeps_other_members (strict : bool)
  (typeError : option jsval -> string -> string)
  (name url : string) (ps ps' : list (string * jsval)) :
  rewriteManifest strict typeError name url (VObj ps) = Returned (VObj ps') ->
  (forall k, k <> "name" -> k <> "config" ->
             Props.get ps' k = Props.get ps k)
  /\ Props.get ps' "name" = Some (VStr name)
  /\ (url = "" -> Props.get ps' "config" = Props.get ps "config")
  /\ (forall cs, Props.get ps "config" = Some (VObj cs) ->
        exists cs',
          Props.get ps' "config" = Some (VObj cs')
          /\ forall k, k <> "shopifyStore" ->
                       Props.get cs' k = Props.get cs k).
Proof.
  unfold rewriteManifest. simpl.
  assert (Hg : Props.get (Props.set ps "name" (VStr name)) "config"
               = Props.get ps "config")
    by (apply get_set_other; discriminate).
  destruct (truthy url) eqn:Hu.
  - rewrite Hg.
    destruct (truthyVal (Props.get ps "config")) eqn:T; simpl.
    + rewrite Hg.
      destruct (Props.get ps "config") as [[|b|x|s|items own|cs]|] eqn:C;
        simpl in *; try discriminate;
        try (destruct strict; simpl; [discriminate|]);
        intros [= <-];
        (split; [intros k K1 K2;
                 rewrite ?get_set_other by congruence; reflexivity|]);
        (split; [rewrite ?get_set_other by discriminate;
                 apply get_set_same|]);
        (split; [intros ->; discriminate Hu|]);
        intros cs0 [= <-].
      eexists. split; [apply get_set_same|].
      intros k K. apply get_set_other. congruence.
    + rewrite get_set_same. simpl. intros [= <-].
      split; [intros k K1 K2;
              rewrite !get_set_other by congruence; reflexivity|].
      split; [rewrite !get_set_other by discriminate; apply get_set_same|].
      split; [intros ->; discriminate Hu|].
      intros cs C. rewrite C in T. discriminate T.
  - intros [= <-].
    split; [intros k K1 K2; apply get_set_other; congruence|].
    split; [apply get_set_same|].
    split; [intros _; exact Hg|].
    intros cs C. exists cs. rewrite Hg. split; [exact C | reflexivity].
Qed.

Section Frame.
Context {W : Type} (node : Node W).

(** X18.  The rewrite step changes the machine through its writes only: a step
    that came to no write leaves the state as it found it. *)
Theorem rewrite_without_write_changes_nothing
  (cfg : config) (st st' : state W) (r : outcome unit) (ev : list event) :
  updateProjectFiles node cfg st = (r, st', ev) ->
  written ev = [] ->
  st' = st.
Proof.
  unfold updateProjectFiles, updateReadme, updatePackage, bind, tryCatch,
    observe, attempt, perform, lift, emit, ret, throw.
  destruct st as [w0 inp]. run_calls;
    intros [= <- <- <-] H; simpl in H; first [discriminate H | reflexivity].
Qed.

End Frame.

(** ** The further properties at concrete inputs *)

Lemma last_git_flag_decides_witness :
  collectInput
    (["my-theme"; "--non-interactive"]
     ++ ("--git=" ++ "True")%string :: ["--install=no"])
    (Memory.start Memory.empty [])
  = (Ok {| themeName := "my-theme"; storeUrl := "";
           initGit := true; installDeps := false |},
     Memory.start Memory.empty [], [])
  /\ initGit {| themeName := "my-theme"; storeUrl := "";
                initGit := true; installDeps := false |}
     = (toLowerCase "True" =? "true").
Proof.
  split; [reflexivity|].
  apply (last_git_flag_decides (W := Memory.machine)
           ["my-theme"; "--non-interactive"] ["--install=no"]
           "--git=" "True"
           (Memory.start Memory.empty []) (Memory.start Memory.empty [])
           {| themeName := "my-theme"; storeUrl := "";
              initGit := true; installDeps := false |} []);
    first [ reflexivity | left; reflexivity ].
Defined.

Lemma last_install_flag_decides_witness :
  collectInput
    (["my-theme"; "--non-interactive"; "-i=true"]
     ++ ("-i=" ++ "yes")%string :: ["--git=true"])
    (Memory.start Memory.empty [])
  = (Ok {| themeName := "my-theme"; storeUrl := "";
           initGit := true; installDeps := false |},
     Memory.start Memory.empty [], [])
  /\ installDeps {| themeName := "my-theme"; storeUrl := "";
                    initGit := true; installDeps := false |}
     = (toLowerCase "yes" =? "true").
Proof.
  split; [reflexivity|].
  apply (last_install_flag_decides (W := Memory.machine)
           ["my-theme"; "--non-interactive"; "-i=true"] ["--git=true"]
           "-i=" "yes"
           (Memory.start Memory.empty []) (Memory.start Memory.empty [])
           {| themeName := "my-theme"; storeUrl := "";
              initGit := true; installDeps := false |} []);
    first [ reflexivity | right; reflexivity ].
Defined.

Lemma no_flag_defaults_witness :
  storeUrl {| themeName := "my-theme"; storeUrl := "";
              initGit := true; installDeps := true |} = ""
  /\ initGit {| themeName := "my-theme"; storeUrl := "";
                initGit := true; installDeps := true |} = true
  /\ installDeps {| themeName := "my-theme"; storeUrl := "";
                    initGit := true; installDeps := true |} = true.
Proof.
  apply (no_flag_defaults (W := Memory.machine)
           ["my-theme"; "--non-interactive"; "--git"; "store=x"]
           (Memory.start Memory.empty []) (Memory.start Memory.empty [])
           {| themeName := "my-theme"; storeUrl := "";
              initGit := true; installDeps := true |} []);
    reflexivity.
Defined.

(** What follows the second ["="] does not count: a valid store with an
    invalid tail is accepted, an invalid store with a valid tail is not. *)
Lemma store_value_cut_witness :
  (exists git install,
     collectInput
       (["my-theme"; "--non-interactive"]
        ++ ("--store=" ++ "shop.myshopify.com" ++ String "=" "x.example.com")%string
           :: [])
       (Memory.start Memory.empty [])
     = (Ok {| themeName := "my-theme"; storeUrl := "shop.myshopify.com";
              initGit := git; installDeps := install |},
        Memory.start Memory.empty [], []))
  /\ collectInput
       (["my-theme"; "--non-interactive"]
        ++ ("-s=" ++ "x.example.com" ++ String "=" "shop.myshopify.com")%string
           :: [])
       (Memory.start Memory.empty [])
     = (Exit 1, Memory.start Memory.empty [], [ConsoleError storeUrlInvalid]).
Proof.
  split.
  - apply (store_value_cut_at_second_separator (W := Memory.machine)
             ["my-theme"; "--non-interactive"] []
             "--store=" "shop.myshopify.com" "x.example.com" "my-theme"
             (Memory.start Memory.empty [])
             (or_introl eq_refl) eq_refl eq_refl eq_refl eq_refl eq_refl).
    + discriminate.
    + right. reflexivity.
  - apply (store_value_cut_at_second_separator (W := Memory.machine)
             ["my-theme"; "--non-interactive"] []
             "-s=" "x.example.com" "shop.myshopify.com" "my-theme"
             (Memory.start Memory.empty [])
             (or_intror eq_refl) eq_refl eq_refl eq_refl eq_refl eq_refl).
    + discriminate.
    + discriminate.
    + reflexivity.
Defined.

Lemma collected_store_url_witness :
  (storeUrl {| themeName := "t"; storeUrl := "example-store.myshopify.com";
               initGit := true; installDeps := false |} = ""
   \/ endsWith
        (storeUrl {| themeName := "t";
                     storeUrl := "example-store.myshopify.com";
                     initGit := true; installDeps := false |})
        ".myshopify.com" = true)
  /\ (nonInteractive ["ignored"] = false ->
      endsWith
        (storeUrl {| themeName := "t";
                     storeUrl := "example-store.myshopify.com";
                     initGit := true; installDeps := false |})
        ".myshopify.com" = true).
Proof.
  apply (collected_store_url_is_valid (W := Memory.machine)
           ["ignored"]
           (Memory.start Memory.empty ["t"; "nope"; ""; "y"; "n"])
           (Memory.start Memory.empty [])
           {| themeName := "t"; storeUrl := "example-store.myshopify.com";
              initGit := true; installDeps := false |}
           [CreateInterface; Question themeNameQuery;
            Question storeUrlQuery; ConsoleLog storeUrlRetry;
            Question storeUrlQuery; Question gitInitQuery;
            Question installDepsQuery; RlClose]).
  reflexivity.
Defined.

(** Both modes: a padded answer to the prompt is handed on trimmed, a
    blank first argument is handed on as it is. *)
Lemma collected_theme_name_witness :
  (collectInput []
     (Memory.start Memory.empty ["  my theme "; ""; "y"; "n"])
   = (Ok {| themeName := "my theme";
            storeUrl := "example-store.myshopify.com";
            initGit := true; installDeps := false |},
      Memory.start Memory.empty [],
      [CreateInterface; Question themeNameQuery; Question storeUrlQuery;
       Question gitInitQuery; Question installDepsQuery; RlClose])
   /\ "my theme" <> ""
   /\ blank "my theme" = false)
  /\ (collectInput [" "; "--non-interactive"] (Memory.start Memory.empty [])
      = (Ok {| themeName := " "; storeUrl := "";
               initGit := true; installDeps := true |},
         Memory.start Memory.empty [], [])
      /\ " " <> ""
      /\ hd_error [" "; "--non-interactive"] = Some " "
      /\ blank " " = true).
Proof.
  split.
  - split; [reflexivity|].
    destruct (collected_theme_name_is_not_empty (W := Memory.machine)
                []
                (Memory.start Memory.empty ["  my theme "; ""; "y"; "n"])
                (Memory.start Memory.empty [])
                {| themeName := "my theme";
                   storeUrl := "example-store.myshopify.com";
                   initGit := true; installDeps := false |}
                [CreateInterface; Question themeNameQuery;
                 Question storeUrlQuery; Question gitInitQuery;
                 Question installDepsQuery; RlClose]
                eq_refl) as (Hne & Hb & _).
    split; [exact Hne | exact (Hb eq_refl)].
  - split; [reflexivity|].
    destruct (collected_theme_name_is_not_empty (W := Memory.machine)
                [" "; "--non-interactive"]
                (Memory.start Memory.empty []) (Memory.start Memory.empty [])
                {| themeName := " "; storeUrl := "";
                   initGit := true; installDeps := true |} []
                eq_refl) as (Hne & _ & Hd).
    split; [exact Hne|]. split; [exact (Hd eq_refl) | reflexivity].
Defined.

(** The clone succeeds and the [.git] directory is removed; the manifest
    does not parse, [git init] fails and the install fails: exit code 0. *)
Lemma later_failures_witness :
  fst (fst (main (Memory.node
                    (Memory.cloningAndRemoving "my-theme" Memory.sampleReadme
                       Memory.brokenManifest))
              ["my-theme"; "--non-interactive"]
              (Memory.start Memory.empty [])))
  = Exit 0
  /\ In (SpinnerFail
           "Failed to update project files: Unexpected token in JSON")
       (snd (main (Memory.node
                     (Memory.cloningAndRemoving "my-theme" Memory.sampleReadme
                        Memory.brokenManifest))
               ["my-theme"; "--non-interactive"]
               (Memory.start Memory.empty [])))
  /\ In (SpinnerFail "Failed to initialize git repository")
       (snd (main (Memory.node
                     (Memory.cloningAndRemoving "my-theme" Memory.sampleReadme
                        Memory.brokenManifest))
               ["my-theme"; "--non-interactive"]
               (Memory.start Memory.empty [])))
  /\ In (SpinnerFail "Failed to install dependencies")
       (snd (main (Memory.node
                     (Memory.cloningAndRemoving "my-theme" Memory.sampleReadme
                        Memory.brokenManifest))
               ["my-theme"; "--non-interactive"]
               (Memory.start Memory.empty []))).
Proof.
  split; [|vm_compute; auto 30].
  destruct (later_failures_are_not_fatal
              (Memory.node
                 (Memory.cloningAndRemoving "my-theme" Memory.sampleReadme
                    Memory.brokenManifest))
              ["my-theme"; "--non-interactive"]
              {| themeName := "my-theme"; storeUrl := "";
                 initGit := true; installDeps := true |}
              (Memory.start Memory.empty []) (Memory.start Memory.empty [])
              (Memory.start
                 {| Memory.files := []; Memory.dirs := ["/work/my-theme"] |} [])
              (Memory.start
                 {| Memory.files :=
                      [("/work/my-theme/README.md", Memory.sampleReadme);
                       ("/work/my-theme/package.json", Memory.brokenManifest)];
                    Memory.dirs := ["/work/my-theme/.git"; "/work/my-theme"] |}
                 [])
              [] [ExistsSync "my-theme"; MkdirSync "my-theme"]
              [ConsoleLog "✨ Creating a new Shopify theme called my-theme...";
               SpinnerStart "Cloning repository...";
               ExecSync (gitCheckoutCommand "my-theme");
               SpinnerSucceed "Repository cloned successfully"]
              eq_refl eq_refl eq_refl)
    as (st3 & ev3 & Hu & _ & [[H _]|(w & m & _ & _ & _ & H)]).
  - exact H.
  - exfalso. vm_compute in H. discriminate H.
Defined.

Lemma git_removal_failure_witness :
  finish (Memory.node
            (Memory.cloningOnly "my-theme" Memory.sampleReadme
               Memory.sampleManifest))
    {| themeName := "my-theme"; storeUrl := "";
       initGit := true; installDeps := true |}
    (Memory.start (Memory.cloned Memory.sampleManifest) [])
  = (Uncaught
       ("Command failed: " ++ removeCommand "linux" "/work/my-theme/.git"),
     {| sys := Memory.cloned Memory.sampleManifest; stdin := [] |},
     [SpinnerStart "Initializing git repository...";
      ExistsSync "/work/my-theme/.git";
      ExecSync (removeCommand "linux" "/work/my-theme/.git")]).
Proof.
  apply (git_removal_failure_ends_the_run
           (Memory.node
              (Memory.cloningOnly "my-theme" Memory.sampleReadme
                 Memory.sampleManifest))
           {| themeName := "my-theme"; storeUrl := "";
              initGit := true; installDeps := true |}
           (Memory.start (Memory.cloned Memory.sampleManifest) [])
           (Memory.cloned Memory.sampleManifest)
           ("Command failed: " ++ removeCommand "linux" "/work/my-theme/.git"));
    reflexivity.
Defined.

(** The [.git] directory of the template is found and removed; where the
    clone brings none, nothing is removed. *)
Lemma commands_of_a_completed_run_witness :
  commands
    (snd (scaffold
            (Memory.node
               (Memory.cloning "my-theme" Memory.sampleReadme
                  Memory.sampleManifest))
            {| themeName := "my-theme"; storeUrl := "";
               initGit := true; installDeps := true |}
            (Memory.start Memory.empty [])))
  = [gitCheckoutCommand "my-theme";
     removeCommand "linux" "/work/my-theme/.git";
     gitInitCommand "my-theme";
     installCommand "my-theme"]
  /\ commands
       (snd (scaffold
               (Memory.node (fun _ m => (m, Returned tt)))
               {| themeName := "my-theme"; storeUrl := "";
                  initGit := true; installDeps := true |}
               (Memory.start Memory.empty [])))
     = [gitCheckoutCommand "my-theme";
        gitInitCommand "my-theme";
        installCommand "my-theme"].
Proof.
  split.
  - destruct (commands_of_a_completed_run
                (Memory.node
                   (Memory.cloning "my-theme" Memory.sampleReadme
                      Memory.sampleManifest))
                {| themeName := "my-theme"; storeUrl := "";
                   initGit := true; installDeps := true |}
                (Memory.start Memory.empty [])
                (snd (fst (scaffold
                             (Memory.node
                                (Memory.cloning "my-theme" Memory.sampleReadme
                                   Memory.sampleManifest))
                             {| themeName := "my-theme"; storeUrl := "";
                                initGit := true; installDeps := true |}
                             (Memory.start Memory.empty []))))
                (snd (scaffold
                        (Memory.node
                           (Memory.cloning "my-theme" Memory.sampleReadme
                              Memory.sampleManifest))
                        {| themeName := "my-theme"; storeUrl := "";
                           initGit := true; installDeps := true |}
                        (Memory.start Memory.empty [])))
                eq_refl)
      as (st1 & ev1 & st2 & ev2 & st3 & ev3 & Hd & Hl & Hu & Hc).
    vm_compute in Hd. injection Hd as <- <-.
    vm_compute in Hl. injection Hl as <- <-.
    vm_compute in Hu. injection Hu as <- <-.
    exact Hc.
  - destruct (commands_of_a_completed_run
                (Memory.node (fun _ m => (m, Returned tt)))
                {| themeName := "my-theme"; storeUrl := "";
                   initGit := true; installDeps := true |}
                (Memory.start Memory.empty [])
                (snd (fst (scaffold
                             (Memory.node (fun _ m => (m, Returned tt)))
                             {| themeName := "my-theme"; storeUrl := "";
                                initGit := true; installDeps := true |}
                             (Memory.start Memory.empty []))))
                (snd (scaffold
                        (Memory.node (fun _ m => (m, Returned tt)))
                        {| themeName := "my-theme"; storeUrl := "";
                           initGit := true; installDeps := true |}
                        (Memory.start Memory.empty [])))
                eq_refl)
      as (st1 & ev1 & st2 & ev2 & st3 & ev3 & Hd & Hl & Hu & Hc).
    vm_compute in Hd. injection Hd as <- <-.
    vm_compute in Hl. injection Hl as <- <-.
    vm_compute in Hu. injection Hu as <- <-.
    exact Hc.
Defined.

Lemma install_reminder_witness :
  In installReminder
    (snd (scaffold
            (Memory.node
               (Memory.cloning "my-theme" Memory.sampleReadme
                  Memory.sampleManifest))
            {| themeName := "my-theme"; storeUrl := "";
               initGit := false; installDeps := false |}
            (Memory.start Memory.empty [])))
  <-> installDeps {| themeName := "my-theme"; storeUrl := "";
                     initGit := false; installDeps := false |} = false.
Proof.
  eapply (install_reminder_follows_the_flag
            (Memory.node
               (Memory.cloning "my-theme" Memory.sampleReadme
                  Memory.sampleManifest))
            {| themeName := "my-theme"; storeUrl := "";
               initGit := false; installDeps := false |}
            (Memory.start Memory.empty [])
            (snd (fst (scaffold
                         (Memory.node
                            (Memory.cloning "my-theme" Memory.sampleReadme
                               Memory.sampleManifest))
                         {| themeName := "my-theme"; storeUrl := "";
                            initGit := false; installDeps := false |}
                         (Memory.start Memory.empty []))))).
  vm_compute. reflexivity.
Defined.

Lemma readme_without_heading_witness :
  Readme.replaceHeading "#Starter" "my-theme" = "#Starter".
Proof.
  apply (readme_without_heading_is_unchanged "#Starter" "my-theme").
  intros p q E.
  do 9 (destruct p as [|? p]; [cbn in E; discriminate E|]).
  cbn in E. discriminate E.
Defined.

Lemma readme_first_heading_witness :
  Readme.replaceHeading
    ("#" ++ "# " ++ "Starter theme" ++ (nl ++ "# Later"))%string "my-theme"
  = ("#" ++ "# " ++ "my-theme" ++ (nl ++ "# Later"))%string.
Proof.
  apply (readme_first_heading_is_replaced
           "#" "Starter theme" (nl ++ "# Later")%string "my-theme");
    try reflexivity.
  - intros p q E.
    do 3 (destruct p as [|? p]; [cbn in E; discriminate E|]).
    cbn in E. discriminate E.
  - right. exists "010"%char, "# Later". split; reflexivity.
Defined.

Lemma manifest_keeps_other_members_witness :
  (forall k, k <> "name" -> k <> "config" ->
     Props.get
       [("name", VStr "my-theme"); ("version", VStr "1.0.0");
        ("config", VObj [("port", VStr "9292");
                         ("shopifyStore", VStr "foo.myshopify.com")])] k
     = Props.get
         [("name", VStr "starter"); ("version", VStr "1.0.0");
          ("config", VObj [("port", VStr "9292")])] k)
  /\ Props.get
       [("name", VStr "my-theme"); ("version", VStr "1.0.0");
        ("config", VObj [("port", VStr "9292");
                         ("shopifyStore", VStr "foo.myshopify.com")])] "name"
     = Some (VStr "my-theme")
  /\ ("foo.myshopify.com" = "" ->
      Props.get
        [("name", VStr "my-theme"); ("version", VStr "1.0.0");
         ("config", VObj [("port", VStr "9292");
                          ("shopifyStore", VStr "foo.myshopify.com")])]
        "config"
      = Props.get
          [("name", VStr "starter"); ("version", VStr "1.0.0");
           ("config", VObj [("port", VStr "9292")])] "config")
  /\ (forall cs,
        Props.get
          [("name", VStr "starter"); ("version", VStr "1.0.0");
           ("config", VObj [("port", VStr "9292")])] "config"
        = Some (VObj cs) ->
        exists cs',
          Props.get
            [("name", VStr "my-theme"); ("version", VStr "1.0.0");
             ("config", VObj [("port", VStr "9292");
                              ("shopifyStore", VStr "foo.myshopify.com")])]
            "config"
          = Some (VObj cs')
          /\ forall k, k <> "shopifyStore" ->
                       Props.get cs' k = Props.get cs k).
Proof.
  apply (manifest_keeps_other_members true Memory.typeErrorText
           "my-theme" "foo.myshopify.com"
           [("name", VStr "starter"); ("version", VStr "1.0.0");
            ("config", VObj [("port", VStr "9292")])]
           [("name", VStr "my-theme"); ("version", VStr "1.0.0");
            ("config", VObj [("port", VStr "9292");
                             ("shopifyStore", VStr "foo.myshopify.com")])]).
  reflexivity.
Defined.

(** A manifest that does not parse, and no readme: the step reads, writes
    nothing and leaves the machine as it was. *)
Lemma rewrite_without_write_witness :
  updateProjectFiles (Memory.node Memory.failing)
    {| themeName := "my-theme"; storeUrl := "";
       initGit := true; installDeps := true |}
    (Memory.start
       {| Memory.files :=
            [("/work/my-theme/package.json", Memory.brokenManifest)];
          Memory.dirs := ["/work/my-theme"] |} [])
  = (Ok tt,
     Memory.start
       {| Memory.files :=
            [("/work/my-theme/package.json", Memory.brokenManifest)];
          Memory.dirs := ["/work/my-theme"] |} [],
     [SpinnerStart "Updating project files...";
      ExistsSync "/work/my-theme/README.md";
      ExistsSync "/work/my-theme/package.json";
      ReadFileSync "/work/my-theme/package.json";
      SpinnerFail "Failed to update project files: Unexpected token in JSON"])
  /\ snd (fst (updateProjectFiles (Memory.node Memory.failing)
                 {| themeName := "my-theme"; storeUrl := "";
                    initGit := true; installDeps := true |}
                 (Memory.start
                    {| Memory.files :=
                         [("/work/my-theme/package.json",
                           Memory.brokenManifest)];
                       Memory.dirs := ["/work/my-theme"] |} [])))
     = Memory.start
         {| Memory.files :=
              [("/work/my-theme/package.json", Memory.brokenManifest)];
            Memory.dirs := ["/work/my-theme"] |} [].
Proof.
  split; [reflexivity|].
  apply (rewrite_without_write_changes_nothing (Memory.node Memory.failing)
           {| themeName := "my-theme"; storeUrl := "";
              initGit := true; installDeps := true |}
           (Memory.start
              {| Memory.files :=
                   [("/work/my-theme/package.json", Memory.brokenManifest)];
                 Memory.dirs := ["/work/my-theme"] |} [])
           _
           (Ok tt)
           [SpinnerStart "Updating project files...";
            ExistsSync "/work/my-theme/README.md";
            ExistsSync "/work/my-theme/package.json";
            ReadFileSync "/work/my-theme/package.json";
            SpinnerFail
              "Failed to update project files: Unexpected token in JSON"]);
    reflexivity.
Defined.

Lemma mkdir_failure_witness :
  main Memory.readOnly ["my-theme"; "--non-interactive"]
    (Memory.start Memory.empty [])
  = (Uncaught "EACCES: permission denied, mkdir 'my-theme'",
     {| sys := Memory.empty; stdin := [] |},
     [] ++ [ExistsSync "my-theme"; MkdirSync "my-theme"])
  /\ commands
       (snd (main Memory.readOnly ["my-theme"; "--non-interactive"]
               (Memory.start Memory.empty [])))
     = [].
Proof.
  apply (mkdir_failure_ends_the_run Memory.readOnly
           ["my-theme"; "--non-interactive"]
           {| themeName := "my-theme"; storeUrl := "";
              initGit := true; installDeps := true |}
           (Memory.start Memory.empty []) (Memory.start Memory.empty [])
           [] Memory.empty "EACCES: permission denied, mkdir 'my-theme'");
    reflexivity.
Defined.

Lemma existing_directory_witness :
  (forall p,
     ~ In (MkdirSync p)
         (snd (main (Memory.node
                       (Memory.cloning "my-theme" Memory.sampleReadme
                          Memory.sampleManifest))
                 ["my-theme"; "--non-interactive"]
                 (Memory.start
                    {| Memory.files := [];
                       Memory.dirs := ["/work/my-theme"] |} []))))
  /\ exists ev,
       snd (main (Memory.node
                    (Memory.cloning "my-theme" Memory.sampleReadme
                       Memory.sampleManifest))
              ["my-theme"; "--non-interactive"]
              (Memory.start
                 {| Memory.files := []; Memory.dirs := ["/work/my-theme"] |}
                 []))
       = [] ++ ExistsSync "my-theme"
            :: ConsoleLog "✨ Creating a new Shopify theme called my-theme..."
            :: SpinnerStart "Cloning repository..."
            :: ExecSync (gitCheckoutCommand "my-theme") :: ev.
Proof.
  apply (existing_directory_is_reused
           (Memory.node
              (Memory.cloning "my-theme" Memory.sampleReadme
                 Memory.sampleManifest))
           ["my-theme"; "--non-interactive"]
           {| themeName := "my-theme"; storeUrl := "";
              initGit := true; installDeps := true |}
           (Memory.start
              {| Memory.files := []; Memory.dirs := ["/work/my-theme"] |} [])
           (Memory.start
              {| Memory.files := []; Memory.dirs := ["/work/my-theme"] |} [])
           []);
    reflexivity.
Defined.
